(** * HIRED job board: role-gated navigation, role assignment,
      data-access wrappers and the administrative proxy handlers.

    A shallow embedding of
      - src/components/protected-route.jsx   (ProtectedRoute)
      - src/pages/onboarding.jsx             (navigateUser, handleRoleSelection)
      - src/api/apiJobs.js, apiApplications  (the data-access wrappers)
      - server.js                            (GET /api/get-jobs, DELETE /api/delete-job/:jobId)
    The identity provider (Clerk), the database (Supabase) and the HTTP
    client are external: what they answer is an explicit input of every
    function that awaits them. *)

From stdpp Require Import gmap strings list fin_maps pretty.
From Stdlib Require Import ZArith.
Set Warnings "-register-all,-clear-no-such-hyp".
Local Open Scope Z_scope.

(** ** JavaScript values *)

Module Js.

(** The values that flow through the modelled code.  Numbers are the
    integers (no NaN, no fractions); objects are finite maps from property
    names to values. *)
Inductive jsval : Type :=
  | JUndefined
  | JNull
  | JBool (b : bool)
  | JNum (n : Z)
  | JStr (s : string)
  | JArr (items : list jsval)
  | JObj (fields : gmap string jsval).

(** ToBoolean: [undefined], [null], [false], [0] and the empty string are
    falsy, everything else is truthy. *)
Definition truthy (v : jsval) : bool :=
  match v with
  | JUndefined | JNull => false
  | JBool b => b
  | JNum n => negb (n =? 0)
  | JStr s => negb (String.eqb s "")
  | JArr _ | JObj _ => true
  end.

(** [v === "s"] for a string literal on the right. *)
Definition strict_eq_str (v : jsval) (s : string) : bool :=
  match v with
  | JStr t => String.eqb t s
  | _ => false
  end.

Definition nullish (v : jsval) : bool :=
  match v with
  | JUndefined | JNull => true
  | _ => false
  end.

(** [v.k] on a value that is neither [undefined] nor [null], for a property
    name [k] that is no array index and no built-in property: only objects
    carry such a property. *)
Definition get_named (v : jsval) (k : string) : jsval :=
  match v with
  | JObj m => default JUndefined (m !! k)
  | _ => JUndefined
  end.

(** [v[0]] on a value that is neither [undefined] nor [null]. *)
Definition get_index0 (v : jsval) : jsval :=
  match v with
  | JArr l => default JUndefined (head l)
  | JStr (String c _) => JStr (String c EmptyString)
  | JObj m => default JUndefined (m !! "0")
  | _ => JUndefined
  end.

(** [v?.k] and [v?.[0]]: optional chaining short-circuits to [undefined]. *)
Definition opt_named (v : jsval) (k : string) : jsval :=
  if nullish v then JUndefined else get_named v k.

Definition opt_index0 (v : jsval) : jsval :=
  if nullish v then JUndefined else get_index0 v.

(** [v.k]: a TypeError ([None]) on [undefined] and [null]. *)
Definition member (v : jsval) (k : string) : option jsval :=
  if nullish v then None else Some (get_named v k).

(** [a || b] *)
Definition or_else (a b : jsval) : jsval := if truthy a then a else b.

(** [v.length] on a value that is neither [undefined] nor [null]. *)
Definition get_length (v : jsval) : jsval :=
  match v with
  | JArr l => JNum (Z.of_nat (length l))
  | JStr s => JNum (Z.of_nat (String.length s))
  | JObj m => default JUndefined (m !! "length")
  | _ => JUndefined
  end.

(** [v === n] and [v > 0] for a number literal on the right, [v] a length. *)
Definition strict_eq_num (v : jsval) (n : Z) : bool :=
  match v with
  | JNum k => k =? n
  | _ => false
  end.

Definition gt_zero (v : jsval) : bool :=
  match v with
  | JNum k => 0 <? k
  | _ => false
  end.

(** The text a value contributes to a template literal.  Integers print in
    decimal (as JavaScript does below 10^21); an array prints its elements
    separated by commas, [null] and [undefined] elements as nothing. *)
Fixpoint template (v : jsval) : string :=
  match v with
  | JUndefined => "undefined"
  | JNull => "null"
  | JBool true => "true"
  | JBool false => "false"
  | JNum n => pretty n
  | JStr s => s
  | JArr l =>
      (fix join (items : list jsval) : string :=
         match items with
         | [] => ""
         | [x] => if nullish x then "" else template x
         | x :: rest =>
             (if nullish x then "" else template x) +:+ "," +:+ join rest
         end) l
  | JObj _ => "[object Object]"
  end.

(** Thrown values are error objects: a plain [Error] with its message, or
    the error object of the database client. *)
Record PostgrestError := {
  pg_message : string;
  pg_details : string;
  pg_hint : string;
  pg_code : string
}.

Inductive exn :=
  | JsError (message : string)
  | Postgrest (e : PostgrestError).

(** [error.message] *)
Definition exn_message (e : exn) : string :=
  match e with
  | JsError m => m
  | Postgrest p => pg_message p
  end.

(** The JSON form of the database client's error object. *)
Definition error_value (e : PostgrestError) : jsval :=
  JObj (<["message" := JStr (pg_message e)]>
        (<["details" := JStr (pg_details e)]>
        (<["hint" := JStr (pg_hint e)]>
        (<["code" := JStr (pg_code e)]> ∅)))).

(** How an awaited call or an async function ends. *)
Inductive completion (A : Type) : Type :=
  | Returns (v : A)
  | Throws (e : exn).
Arguments Returns {A} v.
Arguments Throws {A} e.

End Js.
Import Js.

(** ** Router guard: src/components/protected-route.jsx *)

Module Guard.

(** What Clerk's [useUser()] hands to the component. *)
Record User := { unsafeMetadata : jsval }.
Record UseUser := { isSignedIn : bool; isLoaded : bool; user : option User }.

(** What the component returns: [null], a [<Navigate to=.. />] element
    (with or without [replace]) or its children. *)
Inductive element :=
  | Null
  | Navigate (to : string) (replace : bool)
  | Children.

(** [user?.unsafeMetadata?.role] *)
Definition role_of (u : option User) : jsval :=
  match u with
  | None => JUndefined
  | Some usr => opt_named (unsafeMetadata usr) "role"
  end.

(** [requiredRole] is an optional string prop; as a condition it is truthy
    when it is present and not empty. *)
Definition prop_truthy (requiredRole : option string) : bool :=
  match requiredRole with
  | Some s => negb (String.eqb s "")
  | None => false
  end.

(** [requiredRole && role !== requiredRole] *)
Definition role_mismatch (requiredRole : option string) (role : jsval) : bool :=
  match requiredRole with
  | Some s => negb (String.eqb s "") && negb (strict_eq_str role s)
  | None => false
  end.

Definition ProtectedRoute (requiredRole : option string)
    (session : UseUser) (pathname : string) : element :=
  if negb (isLoaded session) then Null
  else if negb (isSignedIn session) then Navigate "/?sign-in=true" false
  else
    let role := role_of (user session) in
    if role_mismatch requiredRole role then Navigate "/" true
    else if strict_eq_str role "admin" && negb (String.eqb pathname "/admin")
    then Navigate "/admin" false
    else if negb (strict_eq_str role "admin") && String.eqb pathname "/admin"
    then Navigate "/" true
    else if negb (truthy role) && negb (String.eqb pathname "/onboarding")
    then Navigate "/onboarding" false
    else Children.

(** *** The decision table of the specification (section 4.1)

    Written from the specification's words, to be compared with
    [ProtectedRoute].  "Set" and "unset" are read as the guard reads them:
    a value is set when it is truthy.  On the roles of the data model
    (absent, "candidate", "recruiter", "admin") that is the same as being
    present. *)

Record guard_input := {
  gi_loaded : bool;
  gi_signed_in : bool;
  gi_role : jsval;
  gi_pathname : string;
  gi_required_role : option string
}.

Inductive outcome :=
  | RenderNothing
  | RedirectTo (destination : string)
  | RenderDestination.

Definition is_set (v : jsval) : bool := truthy v.

(** The roles of the data model (section 3), as the profile stores them. *)
Definition data_model_roles : list jsval :=
  [JUndefined; JStr "candidate"; JStr "recruiter"; JStr "admin"].

Definition differs (role : jsval) (required : option string) : bool :=
  match required with
  | Some s => negb (strict_eq_str role s)
  | None => true
  end.

Definition is_admin (role : jsval) : bool := strict_eq_str role "admin".

Definition decision_table : list ((guard_input → bool) * outcome) :=
  [ (λ i, negb (gi_loaded i), RenderNothing);
    (λ i, negb (gi_signed_in i), RedirectTo "/?sign-in=true");
    (λ i, prop_truthy (gi_required_role i)
            && differs (gi_role i) (gi_required_role i), RedirectTo "/");
    (λ i, is_admin (gi_role i)
            && negb (String.eqb (gi_pathname i) "/admin"), RedirectTo "/admin");
    (λ i, negb (is_admin (gi_role i))
            && String.eqb (gi_pathname i) "/admin", RedirectTo "/");
    (λ i, negb (is_set (gi_role i))
            && negb (String.eqb (gi_pathname i) "/onboarding"),
       RedirectTo "/onboarding") ].

(** First match wins; when no rule matches the destination is rendered. *)
Fixpoint first_match (rules : list ((guard_input → bool) * outcome))
    (i : guard_input) : outcome :=
  match rules with
  | [] => RenderDestination
  | (applies, result) :: rest =>
      if applies i then result else first_match rest i
  end.

Definition guard_spec (i : guard_input) : outcome := first_match decision_table i.

(** The outcome a returned element stands for. *)
Definition outcome_of (e : element) : outcome :=
  match e with
  | Null => RenderNothing
  | Navigate to _ => RedirectTo to
  | Children => RenderDestination
  end.

Definition input_of (requiredRole : option string) (session : UseUser)
    (pathname : string) : guard_input :=
  {| gi_loaded := isLoaded session;
     gi_signed_in := isSignedIn session;
     gi_role := role_of (user session);
     gi_pathname := pathname;
     gi_required_role := requiredRole |}.

(** A signed-in, loaded session whose profile has the given
    [unsafeMetadata]. *)
Definition session_with (metadata : jsval) : UseUser :=
  {| isSignedIn := true; isLoaded := true;
     user := Some {| unsafeMetadata := metadata |} |}.

(** The route table of App.jsx: each path with the [requiredRole] its
    guard is given. *)
Definition routes : list (string * option string) :=
  [ ("/", None);
    ("/onboarding", None);
    ("/admin", Some "admin");
    ("/jobs", None);
    ("/post-job", None);
    ("/my-jobs", None);
    ("/saved-jobs", None);
    ("/job/:id", None) ].

End Guard.
Import Guard.

(** ** Role assignment: src/pages/onboarding.jsx *)

Module Onboarding.

Inductive console_entry :=
  | ConsoleLog (text : string)
  | ConsoleError (text : string) (err : exn).

(** The part of the browser the handler touches: the profile's
    [unsafeMetadata] held by the session provider, the current location, the
    calls of [navigate] so far (oldest first) and the console. *)
Record Browser := {
  metadata : jsval;
  location : string;
  navigations : list string;
  console : list console_entry
}.

Definition navigate (to : string) (b : Browser) : Browser :=
  {| metadata := metadata b;
     location := to;
     navigations := navigations b ++ [to];
     console := console b |}.

Definition console_log (text : string) (b : Browser) : Browser :=
  {| metadata := metadata b;
     location := location b;
     navigations := navigations b;
     console := console b ++ [ConsoleLog text] |}.

Definition console_error (text : string) (err : exn) (b : Browser) : Browser :=
  {| metadata := metadata b;
     location := location b;
     navigations := navigations b;
     console := console b ++ [ConsoleError text err] |}.

(** [navigate(currRole === "recruiter" ? "/post-job" : "/jobs")] *)
Definition navigateUser (currRole : jsval) (b : Browser) : Browser :=
  navigate (if strict_eq_str currRole "recruiter" then "/post-job" else "/jobs") b.

(** The session provider's answer to [user.update]: the promise is
    fulfilled or rejected. *)
Inductive update_answer :=
  | Fulfilled
  | Rejected (err : exn).

(** [user.update({ unsafeMetadata })]: when the provider fulfils the call
    the profile's [unsafeMetadata] is the object that was passed; when it
    rejects, the profile is as before. *)
Definition user_update (unsafe : jsval) (answer : update_answer)
    (b : Browser) : completion unit * Browser :=
  match answer with
  | Fulfilled =>
      (Returns tt,
       {| metadata := unsafe;
          location := location b;
          navigations := navigations b;
          console := console b |})
  | Rejected err => (Throws err, b)
  end.

(** [await user.update({ unsafeMetadata: { role } }).then(..).catch(..)] *)
Definition handleRoleSelection (role : jsval) (answer : update_answer)
    (b : Browser) : Browser :=
  match user_update (JObj {[ "role" := role ]}) answer b with
  | (Returns _, b1) =>
      navigateUser role (console_log ("Role updated to: " +:+ template role) b1)
  | (Throws err, b1) =>
      console_error "Error updating role:" err b1
  end.

(** The role the guard reads from the profile: [unsafeMetadata?.role]. *)
Definition profile_role (b : Browser) : jsval := opt_named (metadata b) "role".

(** The session the guard sees for a signed-in principal of this browser. *)
Definition session_of (b : Browser) : UseUser := session_with (metadata b).

End Onboarding.
Import Onboarding.

(** ** The database client: requests and answers *)

Module Supabase.

Abbreviation row := (gmap string jsval).

(** A request as the query builder assembles it:
    [supabase.from(t).select(c).eq(k, v).single()] and the like. *)
Inductive filter :=
  | Eq (column : string) (value : jsval)
  | ILike (column : string) (pattern : string).

Inductive action :=
  | Select (columns : string)
  | Insert (values : list row)
  | Update (patch : row)
  | Delete
  | Upload (path : string) (file : jsval).

Record query := {
  q_from : string;                    (* table, or storage bucket for Upload *)
  q_action : action;
  q_filters : list filter;            (* in call order *)
  q_order : option (string * bool);   (* column, ascending *)
  q_returning : bool;                 (* .select() after a mutation *)
  q_single : bool                     (* .single() *)
}.

Definition from (table : string) (a : action) : query :=
  {| q_from := table; q_action := a; q_filters := []; q_order := None;
     q_returning := false; q_single := false |}.

Definition add_filter (f : filter) (q : query) : query :=
  {| q_from := q_from q; q_action := q_action q;
     q_filters := q_filters q ++ [f]; q_order := q_order q;
     q_returning := q_returning q; q_single := q_single q |}.

Definition eq (column : string) (value : jsval) : query → query :=
  add_filter (Eq column value).

Definition ilike (column pattern : string) : query → query :=
  add_filter (ILike column pattern).

Definition order (column : string) (ascending : bool) (q : query) : query :=
  {| q_from := q_from q; q_action := q_action q; q_filters := q_filters q;
     q_order := Some (column, ascending);
     q_returning := q_returning q; q_single := q_single q |}.

Definition returning (q : query) : query :=
  {| q_from := q_from q; q_action := q_action q; q_filters := q_filters q;
     q_order := q_order q; q_returning := true; q_single := q_single q |}.

Definition single (q : query) : query :=
  {| q_from := q_from q; q_action := q_action q; q_filters := q_filters q;
     q_order := q_order q; q_returning := q_returning q; q_single := true |}.

(** What [await query] destructures: [{ data, error }]. *)
Record response := { data : jsval; error : option PostgrestError }.

(** An asynchronous computation over the client's state [S]. *)
Definition async (S A : Type) : Type := S → completion A * S.

Definition throw {S A} (e : exn) : async S A := λ s, (Throws e, s).

#[global] Instance async_ret {S} : MRet (async S) :=
  λ A v s, (Returns v, s).

#[global] Instance async_bind {S} : MBind (async S) :=
  λ A B k c s,
    match c s with
    | (Returns v, s') => k v s'
    | (Throws e, s') => (Throws e, s')
    end.

Definition ret {S A} (v : A) : async S A := mret v.

(** The client: it answers a request and moves the database on. *)
Definition client (S : Type) : Type := query → async S response.

End Supabase.
Import Supabase.

(** ** Data-access wrappers: src/api/apiJobs.js *)

Module ApiJobs.
Section Wrappers.
Context {S : Type} (supabase : client S).

Definition getJobs (location company_id searchQuery : jsval) : async S jsval :=
  let query :=
    from "jobs"
      (Select "*, saved: saved_jobs(id), company: companies(name,logo_url)") in
  let query := if truthy location then eq "location" location query else query in
  let query :=
    if truthy company_id then eq "company_id" company_id query else query in
  let query :=
    if truthy searchQuery
    then ilike "title" ("%" +:+ template searchQuery +:+ "%") query
    else query in
  r ← supabase query;
  match error r with
  | Some _ => ret JNull
  | None => ret (data r)
  end.

Definition getSavedJobs : async S jsval :=
  r ← supabase (from "saved_jobs"
                  (Select "*, job: jobs(*, company: companies(name,logo_url))"));
  match error r with
  | Some _ => ret JNull
  | None => ret (data r)
  end.

Definition getSingleJob (job_id : jsval) : async S jsval :=
  let query :=
    single (eq "id" job_id
      (from "jobs"
         (Select "*, company: companies(name,logo_url), applications: applications(*)"))) in
  r ← supabase query;
  match error r with
  | Some _ => ret JNull
  | None => ret (data r)
  end.

(** [saveData] is read at [user_id] and [job_id]. *)
Definition saveJob (user_id job_id : jsval) : async S jsval :=
  check ← supabase (eq "job_id" job_id (eq "user_id" user_id
                      (from "saved_jobs" (Select "id"))));
  match error check with
  | Some checkError => throw (Postgrest checkError)
  | None =>
      let existingSaves := data check in
      if truthy existingSaves && gt_zero (get_length existingSaves) then
        removed ← supabase (eq "user_id" user_id (eq "job_id" job_id
                              (from "saved_jobs" Delete)));
        match error removed with
        | Some deleteError => throw (Postgrest deleteError)
        | None => ret (JArr [])
        end
      else
        inserted ← supabase (returning (from "saved_jobs"
                      (Insert [ <["user_id" := user_id]>
                                (<["job_id" := job_id]> ∅) ])));
        match error inserted with
        | Some insertError => throw (Postgrest insertError)
        | None => ret (data inserted)
        end
  end.

Definition updateHiringStatus (job_id isOpen : jsval) : async S jsval :=
  r ← supabase (returning (eq "id" job_id
                  (from "jobs" (Update {[ "isOpen" := isOpen ]}))));
  match error r with
  | Some _ => ret JNull
  | None => ret (data r)
  end.

Definition getMyJobs (recruiter_id : jsval) : async S jsval :=
  r ← supabase (eq "recruiter_id" recruiter_id
                  (from "jobs" (Select "*, company: companies(name,logo_url)")));
  match error r with
  | Some _ => ret JNull
  | None => ret (data r)
  end.

Definition deleteJob (job_id : jsval) : async S jsval :=
  existing ← supabase (single (eq "id" job_id (from "jobs" (Select "*"))));
  match error existing with
  | Some fetchError =>
      throw (JsError ("Job not found: " +:+ pg_message fetchError))
  | None =>
      deleted ← supabase (returning (eq "id" job_id (from "jobs" Delete)));
      match error deleted with
      | Some deleteError =>
          throw (JsError ("Failed to delete job: " +:+ pg_message deleteError))
      | None =>
          if negb (truthy (data deleted))
             || strict_eq_num (get_length (data deleted)) 0
          then throw (JsError "Job was not deleted - check permissions")
          else ret (data deleted)
      end
  end.

Definition addNewJob (jobData : row) : async S jsval :=
  r ← supabase (returning (from "jobs" (Insert [jobData])));
  match error r with
  | Some _ => throw (JsError "Error Creating Job")
  | None => ret (data r)
  end.

End Wrappers.
End ApiJobs.

(** ** Data-access wrappers of the applications API *)

Module ApiApplications.
Section Wrappers.
Context {S : Type} (supabase : client S) (supabaseUrl : string).

(** [random] is [Math.floor(Math.random() * 90000)]. *)
Definition applyToJob (random : Z) (jobData : row) : async S jsval :=
  let fileName :=
    "resume-" +:+ pretty random +:+ "-"
      +:+ template (default JUndefined (jobData !! "candidate_id")) in
  stored ← supabase (from "resumes"
              (Upload fileName (default JUndefined (jobData !! "resume"))));
  match error stored with
  | Some _ => throw (JsError "Error uploading Resume")
  | None =>
      let resume :=
        supabaseUrl +:+ "/storage/v1/object/public/resumes/" +:+ fileName in
      r ← supabase (returning (from "applications"
              (Insert [ <["resume" := JStr resume]> jobData ])));
      match error r with
      | Some _ => throw (JsError "Error submitting Application")
      | None => ret (data r)
      end
  end.

(** [error || data.length === 0]: reading [length] of [null] is a TypeError. *)
Definition updateApplicationStatus (job_id status : jsval) : async S jsval :=
  r ← supabase (returning (eq "job_id" job_id
                  (from "applications" (Update {[ "status" := status ]}))));
  match error r with
  | Some _ => ret JNull
  | None =>
      if nullish (data r)
      then throw (JsError "Cannot read properties of null (reading 'length')")
      else if strict_eq_num (get_length (data r)) 0 then ret JNull
      else ret (data r)
  end.

Definition getApplications (user_id : jsval) : async S jsval :=
  r ← supabase (eq "candidate_id" user_id
                  (from "applications"
                     (Select "*, job:jobs(title, company:companies(name))")));
  match error r with
  | Some _ => ret JNull
  | None => ret (data r)
  end.

End Wrappers.
End ApiApplications.

(** ** Administrative proxy: server.js *)

Module Server.

(** What the handler hands to [res.status(..).json(..)]. *)
Record http_response := { status : Z; body : jsval }.

(** The identity provider's answer to one [fetch]: the promise rejects, or
    it resolves to a response with its [ok] flag and what [response.json()]
    gives. *)
Inductive fetch_answer :=
  | FetchRejected (err : exn)
  | FetchResponse (ok : bool) (json : completion jsval).

(** [{ ...v }]: the own enumerable properties of [v]. *)
Definition spread (v : jsval) : row :=
  match v with
  | JObj m => m
  | JArr l => list_to_map (imap (λ i x, (pretty (Z.of_nat i), x)) l)
  | JStr s =>
      list_to_map
        (imap (λ i c, (pretty (Z.of_nat i), JStr (String c EmptyString)))
              (String.list_ascii_of_string s))
  | _ => ∅
  end.

(** [{ ...job, recruiter_email, recruiter_name, companies: { name: "N/A" } }] *)
Definition with_recruiter (job email name : jsval) : jsval :=
  JObj (<["companies" := JObj {[ "name" := JStr "N/A" ]}]>
        (<["recruiter_name" := name]>
        (<["recruiter_email" := email]> (spread job)))).

Definition fallback (job : jsval) : jsval :=
  with_recruiter job (JStr "N/A") (JStr "N/A").

(** The message of the TypeError raised by reading property [k] of
    [undefined] or [null]. *)
Definition cannot_read (v : jsval) (k : string) : exn :=
  JsError ("Cannot read properties of " +:+ template v
             +:+ " (reading '" +:+ k +:+ "')").

Definition json (status : Z) (body : jsval) : http_response :=
  {| status := status; body := body |}.

Definition error_body (message : string) : jsval :=
  JObj {[ "error" := JStr message ]}.

Section Handlers.
Context {S : Type} (supabase : client S).

(** The [i]-th request of a fan-out, to the given URL. *)
Variable clerk : nat → string → fetch_answer.

(** The callback of [jobs.map]: one lookup per job, with the fallback for a
    response that is not ok and for anything thrown inside the [try].  The
    [catch] block itself reads [job.recruiter_id] again, so a job that is
    [undefined] or [null] makes the callback reject. *)
Definition enrich (i : nat) (job : jsval) : completion jsval :=
  match member job "recruiter_id" with
  | None => Throws (cannot_read job "recruiter_id")
  | Some recruiter_id =>
      match clerk i ("https://api.clerk.com/v1/users/" +:+ template recruiter_id) with
      | FetchRejected _ => Returns (fallback job)
      | FetchResponse false _ => Returns (fallback job)
      | FetchResponse true (Throws _) => Returns (fallback job)
      | FetchResponse true (Returns recruiter) =>
          match member recruiter "email_addresses" with
          | None => Returns (fallback job)
          | Some addresses =>
              Returns (with_recruiter job
                (or_else (opt_named (opt_index0 addresses) "email_address")
                         (JStr "N/A"))
                (or_else (get_named recruiter "first_name") (JStr "N/A")))
          end
      end
  end.

(** [await Promise.all(promises)]: the results in order, or the rejection
    of the first promise (by position) that rejects. *)
Fixpoint promise_all (results : list (completion jsval)) : completion (list jsval) :=
  match results with
  | [] => Returns []
  | Throws e :: _ => Throws e
  | Returns v :: rest =>
      match promise_all rest with
      | Returns vs => Returns (v :: vs)
      | Throws e => Throws e
      end
  end.

(** The outer [catch] of GET /api/get-jobs. *)
Definition failed_to_fetch (e : exn) : http_response :=
  json 500 (JObj (<["error" := JStr "Failed to fetch jobs"]>
                  (<["details" := JStr (exn_message e)]> ∅))).

(** GET /api/get-jobs *)
Definition get_jobs (s : S) : http_response * S :=
  match supabase (order "created_at" false (from "jobs" (Select "*"))) s with
  | (Throws e, s') => (failed_to_fetch e, s')
  | (Returns r, s') =>
      match error r with
      | Some e =>
          (json 500 (JObj (<["error" := JStr "Failed to fetch jobs"]>
                           (<["details" := error_value e]> ∅))), s')
      | None =>
          let jobs := data r in
          if negb (truthy jobs) || strict_eq_num (get_length jobs) 0
          then (json 200 (JArr []), s')
          else
            match jobs with
            | JArr l =>
                match promise_all (imap enrich l) with
                | Returns jobsWithRecruiters =>
                    (json 200 (JArr jobsWithRecruiters), s')
                | Throws e => (failed_to_fetch e, s')
                end
            | _ => (failed_to_fetch (JsError "jobs.map is not a function"), s')
            end
      end
  end.

(** DELETE /api/delete-job/:jobId *)
Definition delete_job (jobId : string) (s : S) : http_response * S :=
  let server_error := json 500 (error_body "Server error deleting job") in
  match supabase (single (eq "id" (JStr jobId) (from "jobs" (Select "*")))) s with
  | (Throws _, s1) => (server_error, s1)
  | (Returns existing, s1) =>
      match error existing with
      | Some _ => (json 404 (error_body "Job not found"), s1)
      | None =>
          match supabase (returning (eq "id" (JStr jobId) (from "jobs" Delete))) s1 with
          | (Throws _, s2) => (server_error, s2)
          | (Returns deleted, s2) =>
              match error deleted with
              | Some _ => (json 500 (error_body "Failed to delete job"), s2)
              | None =>
                  let data := data deleted in
                  if negb (truthy data) || strict_eq_num (get_length data) 0
                  then (json 500 (error_body "Job deletion failed - no rows affected"), s2)
                  else
                    (json 200
                       (JObj (<["message" := JStr "Job deleted successfully"]>
                              (<["deletedJob" := get_index0 data]>
                              (<["rowsAffected" := get_length data]> ∅)))),
                     s2)
              end
          end
      end
  end.

End Handlers.
End Server.
Import Server.

(** ** An in-memory database behind the client

    Tables are lists of rows in insertion order.  What is the database's own
    business is a parameter: which requests fail, which rows row level
    security lets a request touch, how ORDER BY arranges rows and how ILIKE
    matches.  No constraint is enforced, and a select list other than "*" is
    read as the name of one column. *)

Module Database.

Inductive fault :=
  | AnswerError (e : PostgrestError)
  | ClientThrows (e : exn).

Record Backend := {
  fault_of : query → option fault;
  permits : query → row → bool;
  sort_by : string → bool → list row → list row;
  like : string → jsval → bool
}.

Record Db := {
  tables : gmap string (list row);
  sequences : gmap string Z;
  oplog : list query
}.

(** Filter values travel as text; a cell is compared in its text form. *)
Definition text_of (v : jsval) : option string :=
  match v with
  | JStr s => Some s
  | JNum n => Some (pretty n)
  | JBool true => Some "true"
  | JBool false => Some "false"
  | _ => None
  end.

Definition eq_text (cell : option jsval) (value : jsval) : bool :=
  match cell ≫= text_of, text_of value with
  | Some a, Some b => String.eqb a b
  | _, _ => false
  end.

Definition satisfies (be : Backend) (f : filter) (r : row) : bool :=
  match f with
  | Eq column value => eq_text (r !! column) value
  | ILike column pattern => like be pattern (default JNull (r !! column))
  end.

Definition hit (be : Backend) (q : query) (r : row) : bool :=
  forallb (λ f, satisfies be f r) (q_filters q) && permits be q r.

Definition rows_of (table : string) (db : Db) : list row :=
  default [] (tables db !! table).

Definition set_rows (table : string) (rows : list row) (db : Db) : Db :=
  {| tables := <[table := rows]> (tables db);
     sequences := sequences db;
     oplog := oplog db |}.

Definition log (q : query) (db : Db) : Db :=
  {| tables := tables db; sequences := sequences db; oplog := oplog db ++ [q] |}.

Definition project (columns : string) (r : row) : row :=
  if String.eqb columns "*" then r
  else match r !! columns with
       | Some v => {[ columns := v ]}
       | None => ∅
       end.

Definition no_rows : PostgrestError :=
  {| pg_message := "JSON object requested, multiple (or no) rows returned";
     pg_details := "The result contains 0 or several rows";
     pg_hint := "";
     pg_code := "PGRST116" |}.

Definition rls_violation : PostgrestError :=
  {| pg_message := "new row violates row-level security policy";
     pg_details := "";
     pg_hint := "";
     pg_code := "42501" |}.

Definition already_exists : PostgrestError :=
  {| pg_message := "The resource already exists";
     pg_details := "";
     pg_hint := "";
     pg_code := "409" |}.

Definition rows_answer (q : query) (rows : list row) : response :=
  if q_single q then
    match rows with
    | [r] => {| data := JObj r; error := None |}
    | _ => {| data := JNull; error := Some no_rows |}
    end
  else {| data := JArr (JObj <$> rows); error := None |}.

Definition mutation_answer (q : query) (rows : list row) : response :=
  if q_returning q then rows_answer q rows
  else {| data := JNull; error := None |}.

(** A row as the database stores it: fields that are [undefined] do not
    survive the JSON request body; [id] comes from the table's sequence
    unless the row brings its own. *)
Definition defined (v : jsval) : option jsval :=
  match v with
  | JUndefined => None
  | _ => Some v
  end.

Definition stored (id : Z) (r : row) : row :=
  let r := omap defined r in
  match r !! "id" with
  | Some _ => r
  | None => <["id" := JNum id]> r
  end.

Definition next_id (table : string) (db : Db) : Z :=
  default 1 (sequences db !! table).

Definition run (be : Backend) (q : query) (db : Db) : response * Db :=
  let table := q_from q in
  let rows := rows_of table db in
  match q_action q with
  | Select columns =>
      let hits := List.filter (hit be q) rows in
      let hits :=
        match q_order q with
        | Some (column, ascending) => sort_by be column ascending hits
        | None => hits
        end in
      (rows_answer q (project columns <$> hits), db)
  | Delete =>
      let gone := List.filter (hit be q) rows in
      let kept := List.filter (λ r, negb (hit be q r)) rows in
      (mutation_answer q gone, set_rows table kept db)
  | Update patch =>
      let changed := (λ r, patch ∪ r) <$> List.filter (hit be q) rows in
      let rows' := (λ r, if hit be q r then patch ∪ r else r) <$> rows in
      (mutation_answer q changed, set_rows table rows' db)
  | Insert values =>
      let first := next_id table db in
      let fresh := imap (λ i r, stored (first + Z.of_nat i) r) values in
      if forallb (permits be q) fresh then
        (mutation_answer q fresh,
         {| tables := <[table := rows ++ fresh]> (tables db);
            sequences := <[table := first + Z.of_nat (length values)]> (sequences db);
            oplog := oplog db |})
      else ({| data := JNull; error := Some rls_violation |}, db)
  | Upload path file =>
      if existsb (λ r, eq_text (r !! "name") (JStr path)) rows
      then ({| data := JNull; error := Some already_exists |}, db)
      else
        ({| data := JObj {[ "path" := JStr path ]}; error := None |},
         set_rows table (rows ++ [ <["name" := JStr path]> {[ "file" := file ]} ]) db)
  end.

(** Every request is recorded, oldest first, whether or not it succeeds. *)
Definition exec (be : Backend) : client Db :=
  λ q db,
    match fault_of be q with
    | Some (ClientThrows e) => (Throws e, log q db)
    | Some (AnswerError e) =>
        (Returns {| data := JNull; error := Some e |}, log q db)
    | None =>
        let '(r, db') := run be q db in
        (Returns r, log q db')
    end.

(** The saved/unsaved state of a (user, job) pair: whether the table holds
    a save record for it. *)
Definition save_record (user_id job_id : jsval) (r : row) : bool :=
  eq_text (r !! "user_id") user_id && eq_text (r !! "job_id") job_id.

Definition is_saved (db : Db) (user_id job_id : jsval) : bool :=
  existsb (save_record user_id job_id) (rows_of "saved_jobs" db).

(** A database holding one table, nothing requested yet. *)
Definition one_table (table : string) (rows : list row) : Db :=
  {| tables := {[ table := rows ]}; sequences := ∅; oplog := [] |}.

(** The job rows a path parameter [jobId] selects through [.eq("id", jobId)]. *)
Definition has_id (jobId : string) (r : row) : bool :=
  eq_text (r !! "id") (JStr jobId).

(** The service-role backend of the administrative server: nothing fails,
    row level security is bypassed, rows keep their table order. *)
Definition service_role : Backend :=
  {| fault_of := λ _, None;
     permits := λ _ _, true;
     sort_by := λ _ _ rows, rows;
     like := λ _ _, true |}.

End Database.
Import Database.

(** ** The wrappers as one family, and a client that keeps its answers *)

Module Conventions.

Inductive wrapper_call :=
  | GetJobs (location company_id searchQuery : jsval)
  | GetSavedJobs
  | GetSingleJob (job_id : jsval)
  | SaveJob (user_id job_id : jsval)
  | UpdateHiringStatus (job_id isOpen : jsval)
  | GetMyJobs (recruiter_id : jsval)
  | DeleteJob (job_id : jsval)
  | AddNewJob (jobData : row)
  | ApplyToJob (random : Z) (jobData : row)
  | UpdateApplicationStatus (job_id status : jsval)
  | GetApplications (user_id : jsval).

Definition call {S : Type} (supabase : client S) (supabaseUrl : string)
    (w : wrapper_call) : async S jsval :=
  match w with
  | GetJobs location company_id searchQuery =>
      ApiJobs.getJobs supabase location company_id searchQuery
  | GetSavedJobs => ApiJobs.getSavedJobs supabase
  | GetSingleJob job_id => ApiJobs.getSingleJob supabase job_id
  | SaveJob user_id job_id => ApiJobs.saveJob supabase user_id job_id
  | UpdateHiringStatus job_id isOpen =>
      ApiJobs.updateHiringStatus supabase job_id isOpen
  | GetMyJobs recruiter_id => ApiJobs.getMyJobs supabase recruiter_id
  | DeleteJob job_id => ApiJobs.deleteJob supabase job_id
  | AddNewJob jobData => ApiJobs.addNewJob supabase jobData
  | ApplyToJob random jobData =>
      ApiApplications.applyToJob supabase supabaseUrl random jobData
  | UpdateApplicationStatus job_id status =>
      ApiApplications.updateApplicationStatus supabase job_id status
  | GetApplications user_id => ApiApplications.getApplications supabase user_id
  end.

(** The same client, keeping every answer it gives (oldest first). *)
Definition traced {S : Type} (supabase : client S)
    : client (S * list (completion response)) :=
  λ q st,
    let '(a, s') := supabase q st.1 in
    (a, (s', st.2 ++ [a])).

(** An answer that reports a database error: an [error] in the response, or
    a client that throws. *)
Definition database_error (a : completion response) : bool :=
  match a with
  | Throws _ => true
  | Returns r => match error r with Some _ => true | None => false end
  end.

(** The three ways a wrapper can end that a caller has to tell apart. *)
Definition returns_null (c : completion jsval) : bool :=
  match c with
  | Returns JNull => true
  | _ => false
  end.

Definition throws (c : completion jsval) : bool :=
  match c with
  | Throws _ => true
  | _ => false
  end.

Definition returns_empty_collection (c : completion jsval) : bool :=
  match c with
  | Returns (JArr []) => true
  | _ => false
  end.

(** A client whose every answer is the error [e]. *)
Definition failing (e : PostgrestError) : client unit :=
  λ _ s, (Returns {| data := JNull; error := Some e |}, s).

End Conventions.
Import Conventions.

(** ** The identity lookups of the listing endpoint *)

Module Lookup.

(** The URL the listing endpoint asks for the recruiter of a job row. *)
Definition recruiter_url (job : row) : string :=
  "https://api.clerk.com/v1/users/"
    +:+ template (default JUndefined (job !! "recruiter_id")).

(** A lookup that fails: the request is rejected or the response is not ok. *)
Definition lookup_fails (a : fetch_answer) : bool :=
  match a with
  | FetchRejected _ => true
  | FetchResponse ok _ => negb ok
  end.

(** The three fields the enrichment adds. *)
Definition added_fields : list string :=
  ["recruiter_email"; "recruiter_name"; "companies"].

(** The requests of the two handlers. *)
Definition list_jobs : query := order "created_at" false (from "jobs" (Select "*")).

Definition find_job (jobId : string) : query :=
  single (eq "id" (JStr jobId) (from "jobs" (Select "*"))).

Definition remove_job (jobId : string) : query :=
  returning (eq "id" (JStr jobId) (from "jobs" Delete)).

(** The requests of the save/unsave toggle, and the record it inserts as
    the database stores it. *)
Definition find_save (user_id job_id : jsval) : query :=
  eq "job_id" job_id (eq "user_id" user_id (from "saved_jobs" (Select "id"))).

Definition remove_save (user_id job_id : jsval) : query :=
  eq "user_id" user_id (eq "job_id" job_id (from "saved_jobs" Delete)).

Definition insert_save (user_id job_id : jsval) : query :=
  returning (from "saved_jobs"
    (Insert [ <["user_id" := user_id]> (<["job_id" := job_id]> ∅) ])).

Definition save_row (id : Z) (user_id job_id : jsval) : row :=
  <["id" := JNum id]> (<["user_id" := user_id]> (<["job_id" := job_id]> ∅)).

(** What the callback of the fan-out leaves for the [i]-th job. *)
Definition settled (clerk : nat → string → fetch_answer) (i : nat)
    (job : jsval) : jsval :=
  match enrich clerk i job with
  | Returns v => v
  | Throws _ => job
  end.

End Lookup.
Import Lookup.

(** ** A seeded scenario: one job of recruiter "u1", lookups answered 404 *)

Module Scenario.

Definition job7 : row :=
  <["id" := JNum 7]> (<["title" := JStr "Engineer"]>
    {[ "recruiter_id" := JStr "u1" ]}).

Definition jobs_db : Db := one_table "jobs" [job7].

Definition clerk_404 : nat → string → fetch_answer :=
  λ _ _, FetchResponse false (Returns (JObj ∅)).

End Scenario.
Import Scenario.

(** ** The requests of the other wrappers: src/api/apiJobs.js and the
    applications API *)

Module Requests.

(** The rows [.eq("id", v)] selects. *)
Definition id_is (v : jsval) (r : row) : bool := eq_text (r !! "id") v.

(** The two requests of [deleteJob]. *)
Definition find_by_id (v : jsval) : query := single (eq "id" v (from "jobs" (Select "*"))).

Definition remove_by_id (v : jsval) : query := returning (eq "id" v (from "jobs" Delete)).

(** [.insert([r]).select()] *)
Definition insert_one (table : string) (r : row) : query :=
  returning (from table (Insert [r])).

(** [.update({ field: x }).eq(column, v).select()], the rows it reaches and
    what it makes of a row. *)
Definition update_where (table column : string) (v : jsval) (field : string)
    (x : jsval) : query :=
  returning (eq column v (from table (Update {[ field := x ]}))).

Definition cell_is (column : string) (v : jsval) (r : row) : bool :=
  eq_text (r !! column) v.

Definition set_where (column : string) (v : jsval) (field : string) (x : jsval)
    (r : row) : row :=
  if cell_is column v r then <[field := x]> r else r.

(** [applyToJob]: the name the resume is stored under, the upload, the
    public URL and the application row that is inserted. *)
Definition resume_file (random : Z) (jobData : row) : string :=
  "resume-" +:+ pretty random +:+ "-"
    +:+ template (default JUndefined (jobData !! "candidate_id")).

Definition resume_upload (random : Z) (jobData : row) : query :=
  from "resumes"
    (Upload (resume_file random jobData) (default JUndefined (jobData !! "resume"))).

Definition resume_url (supabaseUrl : string) (random : Z) (jobData : row) : string :=
  supabaseUrl +:+ "/storage/v1/object/public/resumes/" +:+ resume_file random jobData.

Definition application_row (supabaseUrl : string) (random : Z) (jobData : row) : row :=
  <["resume" := JStr (resume_url supabaseUrl random jobData)]> jobData.

(** The exception [saveJob] throws on an answer: what a throwing client
    threw, or the answer's own error object. *)
Definition raised (a : completion response) : option exn :=
  match a with
  | Throws e => Some e
  | Returns r => Postgrest <$> error r
  end.

(** Whether the bucket holds a file of that name. *)
Definition file_stored (path : string) (db : Db) : bool :=
  existsb (λ r, eq_text (r !! "name") (JStr path)) (rows_of "resumes" db).

End Requests.
Import Requests.

(** ** Following the redirects of the guard over the route table *)

Module Router.

(** The pathname of a navigation target: what precedes [?] and [#]. *)
Fixpoint pathname_of (to : string) : string :=
  match to with
  | EmptyString => EmptyString
  | String c rest =>
      if String.eqb (String c EmptyString) "?"
         || String.eqb (String c EmptyString) "#"
      then EmptyString
      else String c (pathname_of rest)
  end.

(** The [requiredRole] of the route whose path is exactly [pathname]; a
    route without the prop, like no such route, gives none. *)
Definition required_role_at (pathname : string) : option string :=
  match List.find (λ route : string * option string, String.eqb route.1 pathname)
          routes with
  | Some route => route.2
  | None => None
  end.

(** Following [<Navigate>]: each redirect changes the location and the guard
    of the route there is evaluated in turn, until a page renders.  [None]
    when nothing has rendered after [fuel] evaluations. *)
Fixpoint settle (fuel : nat) (session : UseUser) (requiredRole : option string)
    (pathname : string) : option string :=
  match fuel with
  | O => None
  | Datatypes.S n =>
      match ProtectedRoute requiredRole session pathname with
      | Children => Some pathname
      | Null => None
      | Navigate to _ =>
          settle n session (required_role_at (pathname_of to)) (pathname_of to)
      end
  end.

End Router.

(** ** The job posting page: PostJob *)

Module PostJobPage.

Inductive view :=
  | Loader
  | Redirect (to : string)
  | Form.

(** What the page returns: the loader while the session or the companies
    load, a redirect to "/jobs" for anyone but a recruiter, else the form. *)
Definition PostJob (session : UseUser) (loadingCompanies : jsval) : view :=
  if negb (isLoaded session) || truthy loadingCompanies then Loader
  else if negb (strict_eq_str (role_of (user session)) "recruiter")
  then Redirect "/jobs"
  else Form.

(** [{ ...data, recruiter_id: user.id, isOpen: true }] *)
Definition job_payload (data : row) (user_id : jsval) : row :=
  <["isOpen" := JBool true]> (<["recruiter_id" := user_id]> data).

End PostJobPage.

(** ** The fetch hook: useFetch *)

Module UseFetch.

(** The hook's state: [data] starts [undefined], [loading] and [error]
    start [null]. *)
Record state := {
  fetched : jsval;
  loading : jsval;
  failure : option exn
}.

Definition initial : state :=
  {| fetched := JUndefined; loading := JNull; failure := None |}.

(** The state while [fn] awaits: [setLoading(true); setError(null)]. *)
Definition pending (st : state) : state :=
  {| fetched := fetched st; loading := JBool true; failure := None |}.

(** The state once [fn] has run: [getToken] is what
    [session.getToken(..)] gives, [cb] the wrapper call with its arguments. *)
Definition fn {S : Type} (getToken : completion jsval) (cb : async S jsval)
    (st : state) (s : S) : state * S :=
  match getToken with
  | Throws e =>
      ({| fetched := fetched st; loading := JBool false; failure := Some e |}, s)
  | Returns _ =>
      match cb s with
      | (Returns response, s') =>
          ({| fetched := response; loading := JBool false; failure := None |}, s')
      | (Throws e, s') =>
          ({| fetched := fetched st; loading := JBool false; failure := Some e |}, s')
      end
  end.

End UseFetch.

(** ** The theme provider: ThemeProvider *)

Module Theme.

(** The browser state the provider touches: local storage, the class list
    of the root element (an ordered set of tokens) and whether the system
    prefers a dark colour scheme. *)
Record Browser := {
  localStorage : gmap string string;
  classList : list string;
  prefersDark : bool
}.

(** The props, with their defaults. *)
Definition defaultTheme_or (prop : option string) : string := default "system" prop.
Definition storageKey_or (prop : option string) : string := default "vite-ui-theme" prop.

(** [localStorage.getItem(storageKey) || defaultTheme] *)
Definition initial_theme (defaultTheme storageKey : option string) (w : Browser)
    : string :=
  match localStorage w !! storageKey_or storageKey with
  | Some stored => if String.eqb stored "" then defaultTheme_or defaultTheme else stored
  | None => defaultTheme_or defaultTheme
  end.

(** ASCII whitespace, which a class token may not contain. *)
Definition is_space (c : Ascii.ascii) : bool :=
  let n := Ascii.nat_of_ascii c in
  (n =? 9)%nat || (n =? 10)%nat || (n =? 12)%nat || (n =? 13)%nat || (n =? 32)%nat.

Definition valid_token (t : string) : bool :=
  negb (String.eqb t "") && forallb (λ c, negb (is_space c)) (String.list_ascii_of_string t).

(** [classList.remove(a, b)] *)
Definition remove2 (a b : string) (classes : list string) : list string :=
  List.filter (λ c, negb (String.eqb c a) && negb (String.eqb c b)) classes.

(** [classList.add(t)]: a SyntaxError or InvalidCharacterError for an empty
    token or one with whitespace; a token already present is not added
    again. *)
Definition add (t : string) (classes : list string) : completion (list string) :=
  if negb (valid_token t)
  then Throws (JsError "The token provided must not be empty or contain whitespace")
  else if existsb (String.eqb t) classes then Returns classes
  else Returns (classes ++ [t]).

(** The effect that runs for a theme. *)
Definition apply_theme (theme : string) (w : Browser) : completion Browser :=
  let cleared := remove2 "light" "dark" (classList w) in
  let token :=
    if String.eqb theme "system"
    then (if prefersDark w then "dark" else "light")
    else theme in
  match add token cleared with
  | Returns classes =>
      Returns {| localStorage := localStorage w;
                 classList := classes;
                 prefersDark := prefersDark w |}
  | Throws e => Throws e
  end.

(** [setTheme(theme)] of the context value: persist, then set the state
    (which the function returns beside the browser). *)
Definition setTheme (storageKey : option string) (theme : string) (w : Browser)
    : string * Browser :=
  (theme,
   {| localStorage := <[storageKey_or storageKey := theme]> (localStorage w);
      classList := classList w;
      prefersDark := prefersDark w |}).

End Theme.

(** ** Administrative proxy, user management: server.js *)

Module ClerkProxy.
Section Handlers.

(** [fetch(url, { method, .. })] to the identity provider's REST API. *)
Variable fetch : string → string → fetch_answer.

(** GET /api/get-clerk-users: the upstream JSON is relayed, whatever the
    upstream status. *)
Definition get_clerk_users : http_response :=
  match fetch "GET" "https://api.clerk.com/v1/users" with
  | FetchResponse _ (Returns users) => json 200 users
  | FetchResponse _ (Throws _) => json 500 (error_body "Failed to fetch users")
  | FetchRejected _ => json 500 (error_body "Failed to fetch users")
  end.

Definition clerk_failed (message : string) (details : jsval) : http_response :=
  json 500 (JObj (<["error" := JStr message]> (<["details" := details]> ∅))).

Definition done_message (message : string) : http_response :=
  json 200 (JObj {[ "message" := JStr message ]}).

(** DELETE /api/delete-user/:userId *)
Definition delete_user (userId : string) : http_response :=
  match fetch "DELETE" ("https://api.clerk.com/v1/users/" +:+ userId) with
  | FetchResponse true _ => done_message "User deleted successfully"
  | FetchResponse false (Returns errData) =>
      clerk_failed "Clerk deletion failed" errData
  | FetchResponse false (Throws _) =>
      json 500 (error_body "Server error deleting user")
  | FetchRejected _ => json 500 (error_body "Server error deleting user")
  end.

(** POST /api/ban-user/:userId *)
Definition ban_user (userId : string) : http_response :=
  match fetch "POST" ("https://api.clerk.com/v1/users/" +:+ userId +:+ "/ban") with
  | FetchResponse true _ => done_message "User banned successfully"
  | FetchResponse false (Returns errData) => clerk_failed "Clerk ban failed" errData
  | FetchResponse false (Throws _) =>
      json 500 (error_body "Server error banning user")
  | FetchRejected _ => json 500 (error_body "Server error banning user")
  end.

(** POST /api/unban-user/:userId *)
Definition unban_user (userId : string) : http_response :=
  match fetch "POST" ("https://api.clerk.com/v1/users/" +:+ userId +:+ "/unban") with
  | FetchResponse true _ => done_message "User unbanned successfully"
  | FetchResponse false (Returns errData) => clerk_failed "Clerk unban failed" errData
  | FetchResponse false (Throws _) =>
      json 500 (error_body "Server error unbanning user")
  | FetchRejected _ => json 500 (error_body "Server error unbanning user")
  end.

End Handlers.

(** Whether the identity provider accepted a request. *)
Definition accepted (a : fetch_answer) : bool :=
  match a with
  | FetchResponse ok _ => ok
  | FetchRejected _ => false
  end.

End ClerkProxy.

(** ** The admin page: src/pages/AdminPageSimple.jsx *)

Module AdminPage.

Record toast := { title : string; description : string; variant : string }.

(** What the page's [fetch] gives: a rejection, or a response with its
    status, what [res.json()] gives and what [res.text()] gives. *)
Inductive reply :=
  | NoReply (err : exn)
  | Reply (status : Z) (json : completion jsval) (text : completion string).

(** [res.ok] *)
Definition ok (status : Z) : bool := (200 <=? status) && (status <=? 299).

(** The reply the page sees when the server's handler answers [r]. *)
Definition served (r : http_response) (text : completion string) : reply :=
  Reply (Server.status r) (Returns (body r)) text.

(** The page's state: the [users] state, the [error] state, the [loading]
    state and the toasts shown so far. *)
Record page := {
  users : jsval;
  error : option string;
  loading : bool;
  toasts : list toast
}.

Definition set_users (v : jsval) (p : page) : page :=
  {| users := v; error := error p; loading := loading p; toasts := toasts p |}.

Definition show (t : toast) (p : page) : page :=
  {| users := users p; error := error p; loading := loading p;
     toasts := toasts p ++ [t] |}.

(** [err.message || fallback] in a destructive toast. *)
Definition error_toast (title fallback : string) (err : exn) : toast :=
  {| title := title;
     description :=
       if String.eqb (exn_message err) "" then fallback else exn_message err;
     variant := "destructive" |}.

(** [users.method(..)]: the receiver has to be an array. *)
Definition as_array (method : string) (v : jsval) : completion (list jsval) :=
  match v with
  | JArr l => Returns l
  | JUndefined | JNull => Throws (cannot_read v method)
  | _ => Throws (JsError ("users." +:+ method +:+ " is not a function"))
  end.

(** [l.find(u => u.id === userId)] *)
Fixpoint find_user (userId : string) (l : list jsval) : completion jsval :=
  match l with
  | [] => Returns JUndefined
  | u :: rest =>
      match member u "id" with
      | None => Throws (cannot_read u "id")
      | Some id => if strict_eq_str id userId then Returns u else find_user userId rest
      end
  end.

(** [l.filter(user => user.id !== userId)] *)
Fixpoint without_user (userId : string) (l : list jsval) : completion (list jsval) :=
  match l with
  | [] => Returns []
  | u :: rest =>
      match member u "id" with
      | None => Throws (cannot_read u "id")
      | Some id =>
          match without_user userId rest with
          | Throws e => Throws e
          | Returns kept =>
              Returns (if strict_eq_str id userId then kept else u :: kept)
          end
      end
  end.

(** [l.map(user => user.id === userId ? { ...user, banned } : user)] *)
Fixpoint with_banned (userId : string) (banned : jsval) (l : list jsval)
    : completion (list jsval) :=
  match l with
  | [] => Returns []
  | u :: rest =>
      match member u "id" with
      | None => Throws (cannot_read u "id")
      | Some id =>
          match with_banned userId banned rest with
          | Throws e => Throws e
          | Returns mapped =>
              Returns ((if strict_eq_str id userId
                        then JObj (<["banned" := banned]> (spread u))
                        else u) :: mapped)
          end
      end
  end.

(** [user?.email_addresses?.[0]?.email_address || fallback] *)
Definition email_or (fallback : string) (user : jsval) : jsval :=
  or_else (opt_named (opt_index0 (opt_named user "email_addresses")) "email_address")
          (JStr fallback).

Section Handlers.
Variable http : string → string → reply.

Definition fetchUsers (p : page) : page :=
  match http "GET" "http://localhost:3001/api/get-clerk-users" with
  | Reply _ (Returns data) _ =>
      {| users := data; error := error p; loading := false; toasts := toasts p |}
  | Reply _ (Throws _) _ | NoReply _ =>
      {| users := users p; error := Some "Error fetching users"; loading := false;
         toasts := toasts p |}
  end.

Definition handleDeleteUser (userId : string) (p : page) : page :=
  let failed := error_toast "❌ Error deleting user"
                  "Failed to delete user. Please try again." in
  match as_array "find" (users p) with
  | Throws e => show (failed e) p
  | Returns l =>
      match find_user userId l with
      | Throws e => show (failed e) p
      | Returns userToDelete =>
          let userEmail := email_or "Unknown" userToDelete in
          match http "DELETE" ("http://localhost:3001/api/delete-user/" +:+ userId) with
          | NoReply e => show (failed e) p
          | Reply status _ _ =>
              if negb (ok status)
              then show (failed (JsError "Failed to delete user")) p
              else
                match without_user userId l with
                | Throws e => show (failed e) p
                | Returns kept =>
                    show {| title := "🗑️ User deleted successfully!";
                            description :=
                              "User " +:+ template userEmail
                                +:+ " has been permanently removed from the platform.";
                            variant := "default" |}
                         (set_users (JArr kept) p)
                end
          end
      end
  end.

Definition handleBanUser (userId : string) (currentBannedStatus : jsval)
    (p : page) : page :=
  let action := if truthy currentBannedStatus then "unban" else "ban" in
  let failed :=
    error_toast
      ("❌ Error " +:+ (if truthy currentBannedStatus then "unbanning" else "banning")
         +:+ " user")
      ("Failed to " +:+ (if truthy currentBannedStatus then "unban" else "ban")
         +:+ " user. Please try again.") in
  match as_array "find" (users p) with
  | Throws e => show (failed e) p
  | Returns l =>
      match find_user userId l with
      | Throws e => show (failed e) p
      | Returns userToBan =>
          let userEmail := email_or "Unknown" userToBan in
          match http "POST" ("http://localhost:3001/api/" +:+ action +:+ "-user/"
                               +:+ userId) with
          | NoReply e => show (failed e) p
          | Reply status _ text =>
              if negb (ok status) then
                match text with
                | Throws e => show (failed e) p
                | Returns _ =>
                    show (failed (JsError ("Failed to " +:+ action +:+ " user: "
                                             +:+ pretty status))) p
                end
              else
                match with_banned userId (JBool (negb (truthy currentBannedStatus))) l with
                | Throws e => show (failed e) p
                | Returns mapped =>
                    show {| title :=
                              if truthy currentBannedStatus
                              then "✅ User unbanned successfully!"
                              else "🚫 User banned successfully!";
                            description :=
                              if truthy currentBannedStatus
                              then template userEmail
                                     +:+ " has been unbanned and can access the platform again."
                              else template userEmail
                                     +:+ " has been banned from the platform.";
                            variant := "default" |}
                         (set_users (JArr mapped) p)
                end
          end
      end
  end.

End Handlers.

(** [s.includes(needle)] and [s.endsWith(suffix)] *)
Fixpoint includes (s needle : string) : bool :=
  String.prefix needle s
  || match s with
     | EmptyString => false
     | String _ rest => includes rest needle
     end.

Definition endsWith (s suffix : string) : bool :=
  (String.length suffix <=? String.length s)%nat
  && String.eqb
       (String.substring (String.length s - String.length suffix)
          (String.length suffix) s)
       suffix.

Section Filters.

(** [String.prototype.toLowerCase], the engine's. *)
Variable toLowerCase : string → string.

(** [v.toLowerCase().includes(search.toLowerCase())] for the variable
    named [name] that holds [v]. *)
Definition matches (name : string) (v : jsval) (search : string) : completion bool :=
  match v with
  | JStr s => Returns (includes (toLowerCase s) (toLowerCase search))
  | _ => Throws (JsError (name +:+ ".toLowerCase is not a function"))
  end.

(** The callback of [filteredUsers]. *)
Definition listed (searchEmail : string) (user : jsval) : completion bool :=
  match member user "email_addresses" with
  | None => Throws (cannot_read user "email_addresses")
  | Some addresses =>
      let email := or_else (opt_named (opt_index0 addresses) "email_address") (JStr "") in
      let name := or_else (get_named user "first_name") (JStr "") in
      let username := or_else (get_named user "username") (JStr "") in
      match email with
      | JStr e =>
          if endsWith e "@admin.com" then Returns false
          else
            match matches "email" email searchEmail with
            | Throws x => Throws x
            | Returns true => Returns true
            | Returns false =>
                match matches "name" name searchEmail with
                | Throws x => Throws x
                | Returns true => Returns true
                | Returns false => matches "username" username searchEmail
                end
            end
      | _ => Throws (JsError "email.endsWith is not a function")
      end
  end.

Fixpoint filter_listed (searchEmail : string) (l : list jsval)
    : completion (list jsval) :=
  match l with
  | [] => Returns []
  | u :: rest =>
      match listed searchEmail u with
      | Throws e => Throws e
      | Returns keep =>
          match filter_listed searchEmail rest with
          | Throws e => Throws e
          | Returns kept => Returns (if keep then u :: kept else kept)
          end
      end
  end.

(** [users.filter(..)] of the render. *)
Definition filteredUsers (users : jsval) (searchEmail : string)
    : completion (list jsval) :=
  match as_array "filter" users with
  | Throws e => Throws e
  | Returns l => filter_listed searchEmail l
  end.

End Filters.

(** A user row with the given id, and the row after the local update of
    its ban flag. *)
Definition user_is (userId : string) (r : row) : bool :=
  strict_eq_str (default JUndefined (r !! "id")) userId.

Definition set_banned (userId : string) (banned : bool) (r : row) : row :=
  if user_is userId r then <["banned" := JBool banned]> r else r.

(** The e-mail address the user table goes by. *)
Definition email_of (user : jsval) : jsval :=
  or_else (opt_named (opt_index0 (opt_named user "email_addresses")) "email_address")
          (JStr "").

End AdminPage.

(** ** Further sample data *)

Module Fixtures.

(** A backend whose every answer is the error [e]. *)
Definition outage (e : PostgrestError) : Backend :=
  {| fault_of := λ _, Some (AnswerError e);
     permits := λ _ _, true;
     sort_by := λ _ _ rows, rows;
     like := λ _ _, true |}.

(** A backend that answers reads and refuses every write. *)
Definition read_only : Backend :=
  {| fault_of := λ q, match q_action q with
                      | Select _ => None
                      | _ => Some (AnswerError rls_violation)
                      end;
     permits := λ _ _, true;
     sort_by := λ _ _ rows, rows;
     like := λ _ _, true |}.

(** The profile the identity provider keeps for recruiter "u1", and a
    provider that answers every lookup with it. *)
Definition recruiter_u1 : row :=
  <["email_addresses" := JArr [JObj {[ "email_address" := JStr "u1@example.com" ]}]]>
    {[ "first_name" := JStr "Uma" ]}.

Definition clerk_u1 : nat → string → fetch_answer :=
  λ _ _, FetchResponse true (Returns (JObj recruiter_u1)).

(** A job as the form submits it, and an application as the drawer does. *)
Definition draft : row :=
  <["title" := JStr "Designer"]> {[ "location" := JStr "Pune" ]}.

Definition application : row :=
  <["candidate_id" := JStr "user_1"]>
    (<["job_id" := JNum 7]> {[ "resume" := JStr "cv.pdf" ]}).

(** A visitor who is not signed in, and a browser on the onboarding page. *)
Definition visitor : UseUser :=
  {| isSignedIn := false; isLoaded := true; user := None |}.

Definition onboarding_tab : Onboarding.Browser :=
  {| metadata := JObj ∅; location := "/onboarding"; navigations := [];
     console := [] |}.

(** A page whose root element carries the light theme among other classes. *)
Definition light_page : Theme.Browser :=
  {| Theme.localStorage := ∅;
     Theme.classList := ["antialiased"; "light"];
     Theme.prefersDark := true |}.

(** An identity provider that accepts every request, one that refuses every
    request, and the admin page of two accounts in front of the server. *)
Definition clerk_accepts : string → string → fetch_answer :=
  λ _ _, FetchResponse true (Returns (JObj ∅)).

Definition clerk_refuses : string → string → fetch_answer :=
  λ _ _, FetchResponse false
           (Returns (JObj {[ "errors" := JArr [JStr "authentication_invalid"] ]})).

Definition account (id email : string) : row :=
  <["id" := JStr id]>
    {[ "email_addresses" := JArr [JObj {[ "email_address" := JStr email ]}] ]}.

Definition accounts : list row :=
  [account "user_1" "root@admin.com"; account "user_2" "sam@example.com"].

Definition admin_page : AdminPage.page :=
  {| AdminPage.users := JArr (JObj <$> accounts);
     AdminPage.error := None;
     AdminPage.loading := false;
     AdminPage.toasts := [] |}.

(** The server in front of [clerk], as the page's [fetch] reaches it. *)
Definition server (clerk : string → string → fetch_answer) (method url : string)
    : AdminPage.reply :=
  if String.eqb url "http://localhost:3001/api/get-clerk-users"
  then AdminPage.served (ClerkProxy.get_clerk_users clerk) (Returns "")
  else if String.eqb url "http://localhost:3001/api/delete-user/user_2"
  then AdminPage.served (ClerkProxy.delete_user clerk "user_2") (Returns "")
  else if String.eqb url "http://localhost:3001/api/ban-user/user_2"
  then AdminPage.served (ClerkProxy.ban_user clerk "user_2") (Returns "")
  else AdminPage.NoReply (JsError "Failed to fetch").

End Fixtures.
Import Fixtures.

(** * Properties *)

(** ** JavaScript values *)

Lemma strict_eq_str_true (v : jsval) (s : string) :
  strict_eq_str v s = true ↔ v = JStr s.
Proof.
  destruct v; simpl; try (split; [discriminate | congruence]).
  rewrite String.eqb_eq. split; congruence.
Qed.

Lemma strict_eq_str_false (v : jsval) (s : string) :
  strict_eq_str v s = false ↔ v ≠ JStr s.
Proof.
  rewrite <- strict_eq_str_true. destruct (strict_eq_str v s); split; congruence.
Qed.

Lemma string_eqb_false (a b : string) : String.eqb a b = false ↔ a ≠ b.
Proof. apply String.eqb_neq. Qed.

Lemma truthy_strict_eq_str (v : jsval) (s : string) :
  truthy v = false → s ≠ "" → strict_eq_str v s = false.
Proof.
  intros Hv Hs. apply strict_eq_str_false. intros ->. simpl in Hv.
  apply negb_false_iff, String.eqb_eq in Hv. contradiction.
Qed.

(** ** Router guard *)

Section GuardFacts.
Variables (requiredRole : option string) (session : UseUser) (pathname : string).
Hypothesis loaded : isLoaded session = true.
Hypothesis signed_in : isSignedIn session = true.

(** Past the two session checks the guard is the four role rules. *)
Lemma ProtectedRoute_signed_in :
  ProtectedRoute requiredRole session pathname =
    let role := role_of (user session) in
    if role_mismatch requiredRole role then Navigate "/" true
    else if strict_eq_str role "admin" && negb (String.eqb pathname "/admin")
    then Navigate "/admin" false
    else if negb (strict_eq_str role "admin") && String.eqb pathname "/admin"
    then Navigate "/" true
    else if negb (truthy role) && negb (String.eqb pathname "/onboarding")
    then Navigate "/onboarding" false
    else Children.
Proof. unfold ProtectedRoute. rewrite loaded, signed_in. reflexivity. Qed.

End GuardFacts.

Lemma role_mismatch_spec (requiredRole : option string) (role : jsval) :
  role_mismatch requiredRole role = prop_truthy requiredRole && differs role requiredRole.
Proof. destruct requiredRole; reflexivity. Qed.

Lemma role_mismatch_unset (requiredRole : option string) (role : jsval) :
  truthy role = false → role_mismatch requiredRole role = prop_truthy requiredRole.
Proof.
  intros Hrole. destruct requiredRole as [s|]; simpl; [|done].
  destruct (String.eqb_spec s ""); simpl; [done|].
  by rewrite truthy_strict_eq_str.
Qed.

Lemma role_mismatch_admin (requiredRole : option string) :
  role_mismatch requiredRole (JStr "admin") = false ↔
  requiredRole ∈ [None; Some ""; Some "admin"].
Proof.
  rewrite !elem_of_cons, elem_of_nil.
  destruct requiredRole as [s|]; [|naive_solver].
  unfold role_mismatch, strict_eq_str.
  destruct (String.eqb s "") eqn:Hs, (String.eqb "admin" s) eqn:Ha;
    cbn [negb andb];
    first [apply String.eqb_eq in Hs | apply String.eqb_neq in Hs];
    first [apply String.eqb_eq in Ha | apply String.eqb_neq in Ha];
    naive_solver.
Qed.

(** On the roles of the data model "set" is "present". *)
Lemma is_set_data_model (role : jsval) :
  role ∈ data_model_roles → (is_set role = true ↔ role ≠ JUndefined).
Proof.
  unfold data_model_roles. rewrite !elem_of_cons, elem_of_nil.
  intros [-> | [-> | [-> | [-> | []]]]]; simpl; split; congruence.
Qed.

(** C1. The guard is the decision table of section 4.1: for every session,
    pathname and [requiredRole] the element it returns stands for the outcome
    of the first rule that applies, in the order (1) not loaded, render
    nothing; (2) not signed in, redirect to "/?sign-in=true"; (3)
    [requiredRole] set and different from the role, redirect to "/"; (4) admin
    off "/admin", redirect to "/admin"; (5) not admin on "/admin", redirect
    to "/"; (6) role unset off "/onboarding", redirect to "/onboarding";
    (7) otherwise render the destination.  The returned element is always one
    of six: there is no error outcome. *)
Theorem guard_follows_decision_table
    (requiredRole : option string) (session : UseUser) (pathname : string) :
  outcome_of (ProtectedRoute requiredRole session pathname)
    = guard_spec (input_of requiredRole session pathname)
  ∧ ProtectedRoute requiredRole session pathname ∈
      [ Null; Navigate "/?sign-in=true" false; Navigate "/" true;
        Navigate "/admin" false; Navigate "/onboarding" false; Children ].
Proof.
  unfold ProtectedRoute, guard_spec, decision_table, input_of, is_admin, is_set.
  simpl. rewrite <- role_mismatch_spec.
  destruct (isLoaded session), (isSignedIn session); simpl;
    try (split; [reflexivity | set_solver]).
  destruct (role_mismatch _ _); simpl; [split; [reflexivity | set_solver]|].
  destruct (strict_eq_str _ "admin"), (String.eqb pathname "/admin"); simpl;
    try (split; [reflexivity | set_solver]);
    destruct (truthy _), (String.eqb pathname "/onboarding"); simpl;
    split; first [reflexivity | set_solver].
Qed.

(** The guard as a component, whatever required role it is given.  For a
    signed-in, loaded principal: with role "admin" and a pathname other than
    "/admin" it never renders the requested page; it redirects to "/admin"
    when it is given no required role (or "admin"), and to "/" when it is
    given another one.  With any other role and pathname "/admin" it
    redirects to "/".  So the requested page is rendered on "/admin" exactly
    for admins. *)
Lemma admin_confinement
    (requiredRole : option string) (session : UseUser) (pathname : string) :
  isLoaded session = true →
  isSignedIn session = true →
  let role := role_of (user session) in
  let result := ProtectedRoute requiredRole session pathname in
  (role = JStr "admin" → pathname ≠ "/admin" →
     result ≠ Children
     ∧ (requiredRole ∈ [None; Some ""; Some "admin"] →
          result = Navigate "/admin" false)
     ∧ (requiredRole ∉ [None; Some ""; Some "admin"] →
          result = Navigate "/" true))
  ∧ (role ≠ JStr "admin" → pathname = "/admin" → result = Navigate "/" true)
  ∧ (result = Children → (pathname = "/admin" ↔ role = JStr "admin")).
Proof.
  intros Hl Hs role result. subst result.
  rewrite (ProtectedRoute_signed_in _ _ _ Hl Hs). fold role. cbv zeta.
  split; [|split].
  - intros Hrole Hpath. rewrite Hrole.
    apply string_eqb_false in Hpath. rewrite Hpath. simpl.
    pose proof (role_mismatch_admin requiredRole) as Hm.
    destruct (role_mismatch requiredRole (JStr "admin")).
    + split; [done|]. split; [|done].
      intros Hin. apply Hm in Hin. discriminate.
    + split; [done|]. split; [done|].
      intros Hnot. destruct Hnot. by apply Hm.
  - intros Hrole ->. apply strict_eq_str_false in Hrole. rewrite Hrole. simpl.
    by destruct (role_mismatch requiredRole role).
  - destruct (role_mismatch requiredRole role); [done|].
    destruct (strict_eq_str role "admin") eqn:Hadmin;
      destruct (String.eqb_spec pathname "/admin") as [Hp|Hp]; simpl; try done.
    + intros _. apply strict_eq_str_true in Hadmin. done.
    + apply strict_eq_str_false in Hadmin. intros _. split; intros; done.
Qed.

(** No route of the application declares a required role other than
    "admin", so there an admin off "/admin" is always sent to "/admin". *)
Lemma admin_confinement_on_routes (route : string * option string)
    (session : UseUser) (pathname : string) :
  route ∈ routes →
  isLoaded session = true →
  isSignedIn session = true →
  role_of (user session) = JStr "admin" →
  pathname ≠ "/admin" →
  ProtectedRoute route.2 session pathname = Navigate "/admin" false.
Proof.
  intros Hroute Hl Hs Hrole Hpath.
  rewrite (ProtectedRoute_signed_in _ _ _ Hl Hs). cbv zeta. rewrite Hrole.
  apply string_eqb_false in Hpath. rewrite Hpath.
  assert (role_mismatch route.2 (JStr "admin") = false) as ->; [|done].
  apply role_mismatch_admin. unfold routes in Hroute.
  rewrite !elem_of_cons, elem_of_nil in Hroute.
  rewrite !elem_of_cons.
  destruct Hroute as [-> | [-> | [-> | [-> | [-> | [-> | [-> | [-> | []]]]]]]]];
    simpl; auto.
Qed.

(** The required role the router gives the guard lets an admin through. *)
Lemma required_role_at_admin (pathname : string) :
  role_mismatch (Router.required_role_at pathname) (JStr "admin") = false.
Proof.
  apply role_mismatch_admin. unfold Router.required_role_at, routes.
  cbn [List.find fst snd].
  repeat (destruct (String.eqb _ pathname); [cbn [snd]; set_solver|]).
  set_solver.
Qed.

(** C2. In the application, where the guard of a destination is given the
    required role of its route: for every signed-in, loaded principal with
    role "admin", the guard applied to any pathname other than "/admin"
    redirects to "/admin" and does not render the requested page; for every
    signed-in, loaded principal with another role, the guard applied to
    "/admin" redirects to "/".  So whenever the requested page is rendered,
    it is the admin destination exactly when the principal is an admin. *)
Theorem admin_views_only_admin_destination (session : UseUser) (pathname : string) :
  isLoaded session = true →
  isSignedIn session = true →
  let role := role_of (user session) in
  let result := ProtectedRoute (Router.required_role_at pathname) session pathname in
  (role = JStr "admin" → pathname ≠ "/admin" →
     result = Navigate "/admin" false ∧ result ≠ Children)
  ∧ (role ≠ JStr "admin" → pathname = "/admin" → result = Navigate "/" true)
  ∧ (result = Children → (pathname = "/admin" ↔ role = JStr "admin")).
Proof.
  intros Hl Hs role result.
  destruct (admin_confinement (Router.required_role_at pathname) session pathname
              Hl Hs) as (Hadmin & Hother & Hrender).
  split; [|split; [exact Hother | exact Hrender]].
  intros Hrole Hpath. destruct (Hadmin Hrole Hpath) as (_ & Hto & _).
  assert (result = Navigate "/admin" false) as Hresult.
  { apply Hto. apply role_mismatch_admin, required_role_at_admin. }
  split; [exact Hresult|]. rewrite Hresult. discriminate.
Qed.

(** An admin asking for "/jobs", and a candidate asking for "/admin". *)
Lemma admin_views_only_admin_destination_witness :
  ProtectedRoute (Router.required_role_at "/jobs")
      (session_with (JObj {[ "role" := JStr "admin" ]})) "/jobs"
    = Navigate "/admin" false
  ∧ ProtectedRoute (Router.required_role_at "/admin")
      (session_with (JObj {[ "role" := JStr "candidate" ]})) "/admin"
    = Navigate "/" true.
Proof.
  split.
  - apply (admin_views_only_admin_destination
             (session_with (JObj {[ "role" := JStr "admin" ]})) "/jobs");
      [reflexivity | reflexivity | vm_compute; reflexivity | discriminate].
  - apply (admin_views_only_admin_destination
             (session_with (JObj {[ "role" := JStr "candidate" ]})) "/admin");
      [reflexivity | reflexivity | vm_compute; discriminate | reflexivity].
Defined.

(** The required role matters: a guard given "recruiter", which no route
    does, sends an admin to "/" by rule 3. *)
Remark admin_under_another_required_role :
  ProtectedRoute (Some "recruiter")
      (session_with (JObj {[ "role" := JStr "admin" ]})) "/post-job"
    = Navigate "/" true.
Proof. reflexivity. Qed.

(** C3, as stated, fails at the admin destination: a principal without a
    role who navigates to "/admin" is sent to "/" by rule 5, not to
    "/onboarding"; and after the role is set to "candidate" the same
    navigation is still redirected to "/". *)
Lemma unset_role_redirect_counterexample :
  let before := session_with (JObj ∅) in
  let after := session_with (JObj {[ "role" := JStr "candidate" ]}) in
  truthy (role_of (user before)) = false
  ∧ "/admin" ≠ "/onboarding"
  ∧ ProtectedRoute None before "/admin" = Navigate "/" true
  ∧ ProtectedRoute None before "/admin" ≠ Navigate "/onboarding" false
  ∧ ProtectedRoute None after "/admin" ≠ Children.
Proof. vm_compute. repeat split; congruence. Qed.

(** C3, amended.  For a signed-in, loaded principal whose role is unset and
    a pathname other than "/onboarding": the guard never renders the
    requested page; it redirects to "/onboarding" when the destination
    declares no required role and is not "/admin", and to "/" otherwise.
    Once the role is set to a value other than "admin", the same navigation,
    to a destination other than "/admin" whose required role (if any) is that
    role, renders the requested page. *)
Theorem unset_role_confinement
    (requiredRole : option string) (session : UseUser) (pathname : string) :
  isLoaded session = true →
  isSignedIn session = true →
  truthy (role_of (user session)) = false →
  pathname ≠ "/onboarding" →
  let result := ProtectedRoute requiredRole session pathname in
  result ≠ Children
  ∧ (prop_truthy requiredRole = false → pathname ≠ "/admin" →
       result = Navigate "/onboarding" false)
  ∧ (prop_truthy requiredRole = true ∨ pathname = "/admin" →
       result = Navigate "/" true)
  ∧ (∀ session' : UseUser,
       isLoaded session' = true →
       isSignedIn session' = true →
       truthy (role_of (user session')) = true →
       role_of (user session') ≠ JStr "admin" →
       role_mismatch requiredRole (role_of (user session')) = false →
       pathname ≠ "/admin" →
       ProtectedRoute requiredRole session' pathname = Children).
Proof.
  intros Hl Hs Hunset Hpath result. subst result.
  rewrite (ProtectedRoute_signed_in _ _ _ Hl Hs). cbv zeta.
  rewrite (role_mismatch_unset _ _ Hunset), Hunset.
  rewrite (truthy_strict_eq_str _ "admin" Hunset) by discriminate.
  apply string_eqb_false in Hpath. rewrite Hpath. simpl.
  repeat split.
  - destruct (prop_truthy requiredRole), (String.eqb pathname "/admin"); done.
  - intros -> Hadmin. apply string_eqb_false in Hadmin. by rewrite Hadmin.
  - intros [-> | ->]; [done|]. by destruct (prop_truthy requiredRole).
  - intros session' Hl' Hs' Hset Hrole Hmatch Hadmin.
    rewrite (ProtectedRoute_signed_in _ _ _ Hl' Hs'). cbv zeta.
    apply strict_eq_str_false in Hrole. apply string_eqb_false in Hadmin.
    by rewrite Hmatch, Hrole, Hadmin, Hset.
Qed.

(** A principal without role asking for "/jobs". *)
Lemma unset_role_confinement_witness :
  ProtectedRoute None (session_with (JObj ∅)) "/jobs"
    = Navigate "/onboarding" false.
Proof.
  apply (unset_role_confinement None (session_with (JObj ∅)) "/jobs");
    [reflexivity | reflexivity | vm_compute; reflexivity | discriminate
    | reflexivity | discriminate].
Defined.

(** ** Role assignment *)

Lemma profile_role_update (role : jsval) (b : Browser) :
  profile_role (handleRoleSelection role Fulfilled b) = role.
Proof.
  unfold profile_role, handleRoleSelection, opt_named, get_named. simpl.
  by rewrite lookup_singleton_eq.
Qed.

(** C4. For every chosen role the handler passes it to the provider's
    update; when the update is fulfilled the profile carries that role and
    the handler navigates (once) to "/post-job" if the role is "recruiter"
    and to "/jobs" for any other value; when the update is rejected the
    handler logs the error, navigates nowhere and the principal stays where
    it was, the profile as before. *)
Theorem handleRoleSelection_contract (role : jsval) (b : Browser) :
  (let b' := handleRoleSelection role Fulfilled b in
   let landing := if strict_eq_str role "recruiter" then "/post-job" else "/jobs" in
   metadata b' = JObj {[ "role" := role ]}
   ∧ profile_role b' = role
   ∧ navigations b' = navigations b ++ [landing]
   ∧ location b' = landing)
  ∧ (∀ err : exn,
       let b' := handleRoleSelection role (Rejected err) b in
       console b' = console b ++ [ConsoleError "Error updating role:" err]
       ∧ navigations b' = navigations b
       ∧ location b' = location b
       ∧ metadata b' = metadata b).
Proof.
  split.
  - cbv zeta. split; [reflexivity|]. split; [apply profile_role_update|].
    split; reflexivity.
  - intros err. cbv zeta. repeat split.
Qed.

(** C8. Assigning "recruiter" twice in succession, both updates fulfilled,
    leaves the profile exactly as one assignment does, with role
    "recruiter", and each of the two invocations navigates to "/post-job". *)
Theorem recruiter_assignment_idempotent (b : Browser) :
  let once := handleRoleSelection (JStr "recruiter") Fulfilled b in
  let twice := handleRoleSelection (JStr "recruiter") Fulfilled once in
  metadata twice = metadata once
  ∧ profile_role twice = JStr "recruiter"
  ∧ profile_role once = JStr "recruiter"
  ∧ navigations once = navigations b ++ ["/post-job"]
  ∧ navigations twice = navigations once ++ ["/post-job"]
  ∧ location once = "/post-job"
  ∧ location twice = "/post-job".
Proof.
  cbv zeta. rewrite !profile_role_update. repeat split.
Qed.

(** The end-to-end scenario of section 8: a principal without role asks
    for "/jobs" and is sent to "/onboarding"; choosing "candidate" updates
    the profile and navigates to "/jobs", which the guard now renders. *)
Lemma onboarding_end_to_end (b : Browser) :
  truthy (profile_role b) = false →
  let b' := handleRoleSelection (JStr "candidate") Fulfilled b in
  ProtectedRoute None (session_of b) "/jobs" = Navigate "/onboarding" false
  ∧ location b' = "/jobs"
  ∧ ProtectedRoute None (session_of b') (location b') = Children.
Proof.
  intros Hunset. split; [|split; reflexivity].
  rewrite (ProtectedRoute_signed_in None (session_of b) "/jobs" eq_refl eq_refl).
  cbv zeta. change (role_of (user (session_of b))) with (profile_role b).
  rewrite Hunset, (truthy_strict_eq_str _ "admin" Hunset) by discriminate.
  reflexivity.
Qed.

(** ** The in-memory database *)

Lemma rows_of_log (q : query) (db : Db) (table : string) :
  rows_of table (log q db) = rows_of table db.
Proof. reflexivity. Qed.

Lemma rows_of_set_rows (table : string) (rows : list row) (db : Db) :
  rows_of table (set_rows table rows db) = rows.
Proof. unfold rows_of, set_rows. simpl. by rewrite lookup_insert_eq. Qed.

Lemma existsb_filter_length {A : Type} (f : A → bool) (l : list A) :
  existsb f l = (0 <? Z.of_nat (length (List.filter f l))).
Proof.
  induction l as [|x l IH]; simpl; [done|].
  destruct (f x); simpl; [|done].
  symmetry. apply Z.ltb_lt. lia.
Qed.

Lemma existsb_filter_negb {A : Type} (f : A → bool) (l : list A) :
  existsb f (List.filter (λ x, negb (f x)) l) = false.
Proof.
  induction l as [|x l IH]; simpl; [done|].
  destruct (f x) eqn:Hx; simpl; [done|]. by rewrite Hx.
Qed.

Lemma eq_text_refl (v : jsval) :
  is_Some (text_of v) → eq_text (Some v) v = true.
Proof.
  intros [t Ht]. unfold eq_text. simpl. rewrite Ht. apply String.eqb_refl.
Qed.

Lemma text_of_defined (v : jsval) : is_Some (text_of v) → defined v = Some v.
Proof. intros [t Ht]. by destruct v. Qed.

(** ** Save/unsave toggle *)

Section SaveJob.
Variables (be : Backend) (u j : jsval).
Hypothesis no_fault : ∀ q, q_from q = "saved_jobs" → fault_of be q = None.
Hypothesis own_rows : ∀ q r, q_from q = "saved_jobs" →
  eq_text (r !! "user_id") u = true → permits be q r = true.
Hypothesis u_text : is_Some (text_of u).
Hypothesis j_text : is_Some (text_of j).

(** Both requests of the toggle select the save records of the pair. *)
Lemma hit_save_record (q : query) (r : row) :
  q_from q = "saved_jobs" →
  (q_filters q = [Eq "user_id" u; Eq "job_id" j]
   ∨ q_filters q = [Eq "job_id" j; Eq "user_id" u]) →
  hit be q r = save_record u j r.
Proof.
  intros Hfrom Hfilters. unfold hit, save_record.
  destruct (eq_text (r !! "user_id") u) eqn:Hu.
  - rewrite (own_rows q r Hfrom Hu).
    destruct Hfilters as [-> | ->]; simpl; rewrite Hu;
      by destruct (eq_text (r !! "job_id") j).
  - destruct Hfilters as [-> | ->]; simpl; rewrite Hu; simpl; [done|].
    by destruct (eq_text (r !! "job_id") j).
Qed.

Lemma exec_find_save (db : Db) :
  exec be (find_save u j) db =
    (Returns {| data := JArr (JObj <$> (project "id" <$>
                  List.filter (save_record u j) (rows_of "saved_jobs" db)));
                error := None |},
     log (find_save u j) db).
Proof.
  unfold exec. rewrite no_fault by reflexivity. unfold run. simpl.
  unfold rows_answer. simpl.
  rewrite (List.filter_ext _ (save_record u j)); [done|].
  intros r. apply hit_save_record; [done|by left].
Qed.

Lemma exec_remove_save (db : Db) :
  exec be (remove_save u j) db =
    (Returns {| data := JNull; error := None |},
     log (remove_save u j)
       (set_rows "saved_jobs"
          (List.filter (λ r, negb (save_record u j r)) (rows_of "saved_jobs" db))
          db)).
Proof.
  unfold exec. rewrite no_fault by reflexivity. unfold run. simpl.
  unfold mutation_answer. simpl.
  rewrite (List.filter_ext (λ r, negb (hit be (remove_save u j) r))
             (λ r, negb (save_record u j r))); [done|].
  intros r. f_equal. apply hit_save_record; [done|by right].
Qed.

Lemma stored_save_row (id : Z) :
  stored (id + Z.of_nat 0) (<["user_id" := u]> (<["job_id" := j]> ∅))
    = save_row id u j.
Proof.
  unfold stored, save_row.
  rewrite !omap_insert, omap_empty.
  rewrite (text_of_defined u u_text), (text_of_defined j j_text).
  rewrite lookup_insert_ne by done. rewrite lookup_insert_ne by done.
  rewrite lookup_empty. by rewrite Z.add_0_r.
Qed.

Lemma save_record_save_row (id : Z) : save_record u j (save_row id u j) = true.
Proof.
  unfold save_record, save_row.
  rewrite lookup_insert_ne by done. rewrite lookup_insert_eq.
  rewrite lookup_insert_ne by done. rewrite lookup_insert_ne by done.
  rewrite lookup_insert_eq.
  by rewrite !eq_text_refl.
Qed.

Lemma exec_insert_save (db : Db) :
  ∃ db1,
    exec be (insert_save u j) db =
      (Returns {| data := JArr [JObj (save_row (next_id "saved_jobs" db) u j)];
                  error := None |}, db1)
    ∧ rows_of "saved_jobs" db1
        = rows_of "saved_jobs" db ++ [save_row (next_id "saved_jobs" db) u j].
Proof.
  unfold exec. rewrite no_fault by reflexivity. unfold run.
  cbn [insert_save returning from q_action q_from imap].
  rewrite stored_save_row. cbn [forallb].
  rewrite own_rows; [|done|].
  2:{ pose proof (save_record_save_row (next_id "saved_jobs" db)) as H.
      unfold save_record in H. by apply andb_true_iff in H as [? _]. }
  cbn [andb]. eexists. split; [reflexivity|].
  rewrite rows_of_log. unfold rows_of at 1. cbn [tables].
  by rewrite lookup_insert_eq.
Qed.

(** [existingSaves && existingSaves.length > 0] decides the saved state. *)
Lemma saved_length (db : Db) :
  is_saved db u j =
    truthy (JArr (JObj <$> (project "id" <$>
              List.filter (save_record u j) (rows_of "saved_jobs" db))))
    && gt_zero (get_length (JArr (JObj <$> (project "id" <$>
              List.filter (save_record u j) (rows_of "saved_jobs" db))))).
Proof.
  unfold is_saved. rewrite existsb_filter_length. simpl.
  by rewrite !length_fmap.
Qed.

Lemma saveJob_saved (db : Db) :
  is_saved db u j = true →
  ∃ db1, ApiJobs.saveJob (exec be) u j db = (Returns (JArr []), db1)
    ∧ rows_of "saved_jobs" db1
        = List.filter (λ r, negb (save_record u j r)) (rows_of "saved_jobs" db)
    ∧ is_saved db1 u j = false.
Proof.
  intros Hsaved. unfold ApiJobs.saveJob, mbind, async_bind.
  fold (find_save u j). fold (remove_save u j).
  rewrite exec_find_save. cbn [error data].
  rewrite <- saved_length, Hsaved.
  rewrite exec_remove_save. cbn [error]. eexists. split; [reflexivity|].
  assert (rows_of "saved_jobs"
    (log (remove_save u j) (set_rows "saved_jobs"
       (List.filter (λ r, negb (save_record u j r))
          (rows_of "saved_jobs" (log (find_save u j) db)))
       (log (find_save u j) db)))
    = List.filter (λ r, negb (save_record u j r)) (rows_of "saved_jobs" db))
    as Hrows.
  { by rewrite rows_of_log, rows_of_set_rows, rows_of_log. }
  split; [exact Hrows|].
  unfold is_saved. rewrite Hrows. apply existsb_filter_negb.
Qed.

Lemma saveJob_unsaved (db : Db) :
  is_saved db u j = false →
  ∃ r db1, ApiJobs.saveJob (exec be) u j db = (Returns (JArr [JObj r]), db1)
    ∧ r !! "user_id" = Some u ∧ r !! "job_id" = Some j
    ∧ rows_of "saved_jobs" db1 = rows_of "saved_jobs" db ++ [r]
    ∧ is_saved db1 u j = true.
Proof.
  intros Hunsaved. unfold ApiJobs.saveJob, mbind, async_bind.
  fold (find_save u j). fold (insert_save u j).
  rewrite exec_find_save. cbn [error data].
  rewrite <- saved_length, Hunsaved.
  destruct (exec_insert_save (log (find_save u j) db)) as (db1 & Hexec & Hrows).
  rewrite Hexec. cbn [error data].
  eexists _, db1. split; [reflexivity|].
  rewrite rows_of_log in Hrows.
  split; [|split; [|split; [exact Hrows|]]].
  - unfold save_row. rewrite lookup_insert_ne by done. apply lookup_insert_eq.
  - unfold save_row. rewrite lookup_insert_ne by done.
    rewrite lookup_insert_ne by done. apply lookup_insert_eq.
  - unfold is_saved. rewrite Hrows, existsb_app. simpl.
    rewrite save_record_save_row. by rewrite orb_true_r.
Qed.

End SaveJob.

(** C5. For every (user_id, job_id) pair whose ids are text or numbers
    and every state of the saved-jobs table, on a database that answers the
    requests on saved_jobs and lets the caller touch the caller's own rows:
    [saveJob] looks for a save record of the pair; if there is one it deletes
    every record of the pair and returns the empty array ("unsaved"); if
    there is none it inserts one record of the pair and returns it
    ("saved"); so two toggles in sequence bring the pair back to the
    saved/unsaved state it had. *)
Theorem saveJob_toggle (be : Backend) (user_id job_id : jsval) (db : Db) :
  (∀ q, q_from q = "saved_jobs" → fault_of be q = None) →
  (∀ q r, q_from q = "saved_jobs" →
     eq_text (r !! "user_id") user_id = true → permits be q r = true) →
  is_Some (text_of user_id) →
  is_Some (text_of job_id) →
  (is_saved db user_id job_id = true →
     ∃ db1,
       ApiJobs.saveJob (exec be) user_id job_id db = (Returns (JArr []), db1)
       ∧ rows_of "saved_jobs" db1
           = List.filter (λ r, negb (save_record user_id job_id r))
               (rows_of "saved_jobs" db)
       ∧ is_saved db1 user_id job_id = false)
  ∧ (is_saved db user_id job_id = false →
     ∃ r db1,
       ApiJobs.saveJob (exec be) user_id job_id db
         = (Returns (JArr [JObj r]), db1)
       ∧ r !! "user_id" = Some user_id
       ∧ r !! "job_id" = Some job_id
       ∧ rows_of "saved_jobs" db1 = rows_of "saved_jobs" db ++ [r]
       ∧ is_saved db1 user_id job_id = true)
  ∧ (∃ out1 db1 out2 db2,
       ApiJobs.saveJob (exec be) user_id job_id db = (Returns out1, db1)
       ∧ ApiJobs.saveJob (exec be) user_id job_id db1 = (Returns out2, db2)
       ∧ is_saved db1 user_id job_id = negb (is_saved db user_id job_id)
       ∧ is_saved db2 user_id job_id = is_saved db user_id job_id).
Proof.
  intros Hfault Hown Hu Hj.
  pose proof (saveJob_saved be user_id job_id Hfault Hown) as Hsaved.
  pose proof (saveJob_unsaved be user_id job_id Hfault Hown Hu Hj) as Hunsaved.
  split; [apply Hsaved|]. split; [apply Hunsaved|].
  destruct (is_saved db user_id job_id) eqn:Hstate.
  - destruct (Hsaved db Hstate) as (db1 & Hrun1 & _ & Hstate1).
    destruct (Hunsaved db1 Hstate1) as (r & db2 & Hrun2 & _ & _ & _ & Hstate2).
    by exists (JArr []), db1, (JArr [JObj r]), db2.
  - destruct (Hunsaved db Hstate) as (r & db1 & Hrun1 & _ & _ & _ & Hstate1).
    destruct (Hsaved db1 Hstate1) as (db2 & Hrun2 & _ & Hstate2).
    by exists (JArr [JObj r]), db1, (JArr []), db2.
Qed.

(** Two toggles of user "user_1" on job 7, starting from an empty table. *)
Lemma saveJob_toggle_witness :
  ∃ out1 db1 out2 db2,
    ApiJobs.saveJob (exec service_role) (JStr "user_1") (JNum 7)
        (one_table "saved_jobs" []) = (Returns out1, db1)
    ∧ ApiJobs.saveJob (exec service_role) (JStr "user_1") (JNum 7) db1
        = (Returns out2, db2)
    ∧ is_saved db1 (JStr "user_1") (JNum 7)
        = negb (is_saved (one_table "saved_jobs" []) (JStr "user_1") (JNum 7))
    ∧ is_saved db2 (JStr "user_1") (JNum 7)
        = is_saved (one_table "saved_jobs" []) (JStr "user_1") (JNum 7).
Proof.
  apply (saveJob_toggle service_role (JStr "user_1") (JNum 7)
           (one_table "saved_jobs" []));
    [ reflexivity | reflexivity | eexists; reflexivity | eexists; reflexivity ].
Defined.

(** ** Administrative proxy handlers *)

Lemma project_star (rows : list row) : project "*" <$> rows = rows.
Proof. induction rows as [|r rows IH]; [done|]. by rewrite fmap_cons, IH. Qed.

Lemma filter_hit_nil (be : Backend) (q : query) (jobId : string) (rows : list row) :
  q_filters q = [Eq "id" (JStr jobId)] →
  List.filter (has_id jobId) rows = [] →
  List.filter (hit be q) rows = [].
Proof.
  intros Hq. induction rows as [|r rows IH]; simpl; [done|].
  unfold hit at 1. rewrite Hq. simpl. fold (has_id jobId r).
  destruct (has_id jobId r); simpl; [discriminate|]. exact IH.
Qed.

Lemma filter_hit_one (be : Backend) (q : query) (jobId : string) (rows : list row) (r : row) :
  q_filters q = [Eq "id" (JStr jobId)] →
  List.filter (has_id jobId) rows = [r] →
  List.filter (hit be q) rows = if permits be q r then [r] else [].
Proof.
  intros Hq. induction rows as [|x rows IH]; simpl; [done|].
  unfold hit at 1. rewrite Hq. simpl. fold (has_id jobId x).
  destruct (has_id jobId x); simpl.
  - intros [= -> Hrest]. rewrite (filter_hit_nil be q jobId rows Hq Hrest).
    by destruct (permits be q r).
  - exact IH.
Qed.

Lemma filter_not_hit (be : Backend) (q : query) (jobId : string) (rows : list row) (r : row) :
  q_filters q = [Eq "id" (JStr jobId)] →
  List.filter (has_id jobId) rows = [r] →
  List.filter (λ x, negb (hit be q x)) rows =
    if permits be q r then List.filter (λ x, negb (has_id jobId x)) rows else rows.
Proof.
  intros Hq. induction rows as [|x rows IH]; simpl; [by destruct (permits be q r)|].
  unfold hit at 1. rewrite Hq. simpl. fold (has_id jobId x).
  destruct (has_id jobId x) eqn:Hx; simpl.
  - intros [= -> Hrest].
    assert (∀ l, List.filter (has_id jobId) l = [] →
              List.filter (λ x, negb (hit be q x)) l = l
              ∧ List.filter (λ x, negb (has_id jobId x)) l = l) as Hnone.
    { induction l as [|y l IHl]; simpl; [done|].
      unfold hit at 1. rewrite Hq. simpl. fold (has_id jobId y).
      destruct (has_id jobId y); simpl; [discriminate|].
      intros Hl. destruct (IHl Hl) as [-> ->]. done. }
    destruct (Hnone rows Hrest) as [-> ->].
    by destruct (permits be q r).
  - intros Hrest. rewrite (IH Hrest). by destruct (permits be q r).
Qed.

Lemma run_select (be : Backend) (q : query) (db : Db) (columns : string) :
  q_action q = Select columns → q_order q = None →
  run be q db
    = (rows_answer q (project columns <$> List.filter (hit be q) (rows_of (q_from q) db)), db).
Proof. unfold run. by intros -> ->. Qed.

Lemma run_delete (be : Backend) (q : query) (db : Db) :
  q_action q = Delete →
  run be q db
    = (mutation_answer q (List.filter (hit be q) (rows_of (q_from q) db)),
       set_rows (q_from q)
         (List.filter (λ r, negb (hit be q r)) (rows_of (q_from q) db)) db).
Proof. unfold run. by intros ->. Qed.

Lemma exec_answer_error (be : Backend) (q : query) (db : Db) (e : PostgrestError) :
  fault_of be q = Some (AnswerError e) →
  exec be q db = (Returns {| data := JNull; error := Some e |}, log q db).
Proof. intros Hfault. unfold exec. by rewrite Hfault. Qed.

Section DeleteJob.
Variables (be : Backend) (jobId : string) (db : Db).
Hypothesis find_answers : fault_of be (find_job jobId) = None.

Lemma exec_find_none :
  List.filter (has_id jobId) (rows_of "jobs" db) = [] →
  exec be (find_job jobId) db
    = (Returns {| data := JNull; error := Some no_rows |}, log (find_job jobId) db).
Proof.
  intros Hnone. unfold exec. rewrite find_answers.
  rewrite (run_select be (find_job jobId) db "*" eq_refl eq_refl).
  change (q_from (find_job jobId)) with "jobs".
  rewrite (filter_hit_nil be (find_job jobId) jobId _ eq_refl Hnone). reflexivity.
Qed.

Lemma exec_find_one (r : row) :
  List.filter (has_id jobId) (rows_of "jobs" db) = [r] →
  permits be (find_job jobId) r = true →
  exec be (find_job jobId) db
    = (Returns {| data := JObj r; error := None |}, log (find_job jobId) db).
Proof.
  intros Hone Hsee. unfold exec. rewrite find_answers.
  rewrite (run_select be (find_job jobId) db "*" eq_refl eq_refl).
  change (q_from (find_job jobId)) with "jobs".
  rewrite (filter_hit_one be (find_job jobId) jobId _ r eq_refl Hone), Hsee.
  reflexivity.
Qed.

Lemma exec_remove (r : row) (db1 : Db) :
  fault_of be (remove_job jobId) = None →
  List.filter (has_id jobId) (rows_of "jobs" db1) = [r] →
  exec be (remove_job jobId) db1
    = (Returns {| data := JArr (JObj <$> (if permits be (remove_job jobId) r then [r] else []));
                  error := None |},
       log (remove_job jobId)
         (set_rows "jobs"
            (if permits be (remove_job jobId) r
             then List.filter (λ x, negb (has_id jobId x)) (rows_of "jobs" db1)
             else rows_of "jobs" db1) db1)).
Proof.
  intros Hfault Hone. unfold exec. rewrite Hfault.
  rewrite (run_delete be (remove_job jobId) db1 eq_refl).
  change (q_from (remove_job jobId)) with "jobs".
  rewrite (filter_hit_one be (remove_job jobId) jobId _ r eq_refl Hone).
  rewrite (filter_not_hit be (remove_job jobId) jobId _ r eq_refl Hone).
  reflexivity.
Qed.

End DeleteJob.

Section Enrichment.
Context {S : Type} (supabase : client S) (clerk : nat → string → fetch_answer).

Lemma with_recruiter_frame (job : row) (email name : jsval) :
  ∃ o : row,
    with_recruiter (JObj job) email name = JObj o
    ∧ (∀ k, k ∉ added_fields → o !! k = job !! k)
    ∧ dom o = dom job ∪ list_to_set added_fields
    ∧ o !! "companies" = Some (JObj {[ "name" := JStr "N/A" ]})
    ∧ o !! "recruiter_email" = Some email
    ∧ o !! "recruiter_name" = Some name
    ∧ ((∀ k, k ∈ added_fields → job !! k = None) → job ⊆ o).
Proof.
  eexists. split; [reflexivity|]. cbn [spread].
  split; [|split; [|split; [|split; [|split]]]].
  - intros k Hk. unfold added_fields in Hk.
    rewrite !not_elem_of_cons in Hk. destruct Hk as (H1 & H2 & H3 & _).
    by rewrite !lookup_insert_ne.
  - rewrite !dom_insert_L. unfold added_fields. set_solver.
  - apply lookup_insert_eq.
  - rewrite lookup_insert_ne by done. rewrite lookup_insert_ne by done.
    apply lookup_insert_eq.
  - rewrite lookup_insert_ne by done. apply lookup_insert_eq.
  - intros Hnew. unfold added_fields in Hnew.
    apply insert_subseteq_r; [apply Hnew; set_solver|].
    apply insert_subseteq_r; [apply Hnew; set_solver|].
    apply insert_subseteq. apply Hnew; set_solver.
Qed.

Lemma enrich_object (i : nat) (job : row) :
  ∃ email name, enrich clerk i (JObj job) = Returns (with_recruiter (JObj job) email name).
Proof.
  unfold enrich, member. cbn [nullish].
  destruct (clerk i _) as [err | [|] [recruiter | err]];
    try (by exists (JStr "N/A"), (JStr "N/A")).
  destruct (nullish recruiter); [by exists (JStr "N/A"), (JStr "N/A")|].
  by eexists _, _.
Qed.

(** The two fields the callback adds are never empty, and are the fallback
    when the lookup fails. *)
Lemma enrich_fields (i : nat) (job : row) :
  ∃ email name,
    enrich clerk i (JObj job) = Returns (with_recruiter (JObj job) email name)
    ∧ truthy email = true
    ∧ truthy name = true
    ∧ (lookup_fails (clerk i (recruiter_url job)) = true →
         email = JStr "N/A" ∧ name = JStr "N/A").
Proof.
  unfold enrich, member, recruiter_url. cbn [nullish get_named].
  destruct (clerk i _) as [err | [|] [recruiter | err]];
    try (by exists (JStr "N/A"), (JStr "N/A")).
  destruct (nullish recruiter); [by exists (JStr "N/A"), (JStr "N/A")|].
  eexists _, _. split; [reflexivity|]. unfold or_else.
  split; [|split; [|discriminate]].
  - by destruct (truthy (opt_named _ _)) eqn:H.
  - by destruct (truthy (get_named _ _)) eqn:H.
Qed.

Lemma enrich_failed (i : nat) (job : row) :
  lookup_fails (clerk i (recruiter_url job)) = true →
  enrich clerk i (JObj job) = Returns (fallback (JObj job)).
Proof.
  unfold enrich, member, recruiter_url. cbn [nullish get_named].
  by destruct (clerk i _) as [err | [|] json].
Qed.

Lemma promise_all_imap (f : nat → jsval → completion jsval)
    (g : nat → jsval → jsval) (l : list jsval) :
  (∀ i x, l !! i = Some x → f i x = Returns (g i x)) →
  promise_all (imap f l) = Returns (imap g l).
Proof.
  revert f g. induction l as [|x l IH]; intros f g Hfg; [done|].
  cbn [imap promise_all]. rewrite (Hfg 0%nat x eq_refl).
  rewrite (IH (f ∘ Datatypes.S) (g ∘ Datatypes.S)); [done|].
  intros i y Hy. apply (Hfg (Datatypes.S i) y Hy).
Qed.

Lemma get_jobs_fetched (s s' : S) (rows : list row) :
  rows ≠ [] →
  supabase list_jobs s = (Returns {| data := JArr (JObj <$> rows); error := None |}, s') →
  get_jobs supabase clerk s = (json 200 (JArr (imap (settled clerk) (JObj <$> rows))), s').
Proof.
  intros Hrows Hq. unfold get_jobs. fold list_jobs. rewrite Hq. cbn [error data].
  cbn [truthy negb orb get_length strict_eq_num].
  rewrite length_fmap.
  destruct (Z.eqb_spec (Z.of_nat (length rows)) 0) as [Hz|_].
  { destruct rows; [done|simpl in Hz; lia]. }
  rewrite (promise_all_imap _ (settled clerk)); [done|].
  intros i x Hx. apply list_lookup_fmap_Some in Hx as (job & -> & _).
  unfold settled. by destruct (enrich_object i job) as (e & n & ->).
Qed.

End Enrichment.

(** C10. For every non-empty list of job rows the database hands to GET
    /api/get-jobs, whatever the identity provider answers, the handler
    responds 200 with an array that has one element per fetched row, in the
    same order; each element has every field of its row with the value the
    row has (a row that has none of the three added fields is contained in
    its element), and beyond the row's fields exactly recruiter_email,
    recruiter_name and companies, the last always { name: "N/A" }.  The two
    recruiter fields hold truthy values (so neither is undefined, and both
    are in the JSON body), "N/A" when the lookup of the row's recruiter
    fails. *)
Theorem get_jobs_enrichment_frame {S : Type} (supabase : client S)
    (clerk : nat → string → fetch_answer) (s s' : S) (rows : list row) :
  rows ≠ [] →
  supabase list_jobs s
    = (Returns {| data := JArr (JObj <$> rows); error := None |}, s') →
  ∃ out : list row,
    get_jobs supabase clerk s = (json 200 (JArr (JObj <$> out)), s')
    ∧ length out = length rows
    ∧ ∀ (i : nat) (job : row), rows !! i = Some job →
        ∃ o : row,
          out !! i = Some o
          ∧ (∀ k, k ∉ added_fields → o !! k = job !! k)
          ∧ dom o = dom job ∪ list_to_set added_fields
          ∧ o !! "companies" = Some (JObj {[ "name" := JStr "N/A" ]})
          ∧ (∃ email name,
               o !! "recruiter_email" = Some email
               ∧ o !! "recruiter_name" = Some name
               ∧ truthy email = true
               ∧ truthy name = true
               ∧ (lookup_fails (clerk i (recruiter_url job)) = true →
                    email = JStr "N/A" ∧ name = JStr "N/A"))
          ∧ ((∀ k, k ∈ added_fields → job !! k = None) → job ⊆ o).
Proof.
  intros Hrows Hq.
  exists (imap (λ i job, spread (settled clerk i (JObj job))) rows).
  split; [|split].
  - rewrite (get_jobs_fetched supabase clerk s s' rows Hrows Hq).
    do 3 f_equal. rewrite imap_fmap, fmap_imap. apply imap_ext.
    intros i job _. unfold settled. simpl.
    destruct (enrich_object clerk i job) as (e & n & ->). reflexivity.
  - apply length_imap.
  - intros i job Hjob. rewrite list_lookup_imap, Hjob. simpl.
    eexists. split; [reflexivity|].
    unfold settled.
    destruct (enrich_fields clerk i job) as (e & n & -> & Het & Hnt & Hfail).
    destruct (with_recruiter_frame job e n)
      as (o & -> & Hframe & Hdom & Hco & He & Hn & Hsub).
    cbn [spread]. repeat (split; [done|]). split; [|done].
    exists e, n. done.
Qed.

Lemma exec_list_jobs (be : Backend) (db : Db) :
  fault_of be list_jobs = None →
  exec be list_jobs db
    = (Returns {| data := JArr (JObj <$> sort_by be "created_at" false
                                   (List.filter (permits be list_jobs) (rows_of "jobs" db)));
                  error := None |},
       log list_jobs db).
Proof.
  intros Hfault. unfold exec. rewrite Hfault. unfold run.
  cbn [list_jobs order from q_action q_from q_order q_filters].
  rewrite project_star. reflexivity.
Qed.

(** C7. For every state of the jobs table, on a database that answers the
    listing request (its ORDER BY a rearrangement of the rows): with an empty
    table GET /api/get-jobs responds 200 with []; and every visible job row
    whose recruiter lookup fails (rejected, or a response that is not ok) is
    present in a 200 response, its recruiter_email and recruiter_name both
    "N/A" and its own fields as they were: the failure of a lookup is never
    the failure of the endpoint. *)
Theorem get_jobs_tolerates_lookup_failure (be : Backend)
    (clerk : nat → string → fetch_answer) (db : Db) :
  fault_of be list_jobs = None →
  (∀ column ascending rows, sort_by be column ascending rows ≡ₚ rows) →
  (rows_of "jobs" db = [] →
     (get_jobs (exec be) clerk db).1 = json 200 (JArr []))
  ∧ (∀ job : row,
       job ∈ rows_of "jobs" db →
       permits be list_jobs job = true →
       (∀ i, lookup_fails (clerk i (recruiter_url job)) = true) →
       ∃ (out : list jsval) (o : row),
         (get_jobs (exec be) clerk db).1 = json 200 (JArr out)
         ∧ JObj o ∈ out
         ∧ o !! "recruiter_email" = Some (JStr "N/A")
         ∧ o !! "recruiter_name" = Some (JStr "N/A")
         ∧ (∀ k, k ∉ added_fields → o !! k = job !! k)).
Proof.
  intros Hfault Hsort.
  pose proof (exec_list_jobs be db Hfault) as Hexec.
  set (fetched := sort_by be "created_at" false
                    (List.filter (permits be list_jobs) (rows_of "jobs" db))) in *.
  split.
  - intros Hempty. unfold get_jobs. fold list_jobs. rewrite Hexec.
    subst fetched. rewrite Hempty. simpl.
    pose proof (Hsort "created_at" false []) as Hnil.
    apply Permutation_nil_r in Hnil. rewrite Hnil. reflexivity.
  - intros job Hjob Hsee Hfails.
    assert (job ∈ fetched) as Hin.
    { subst fetched. rewrite (Hsort _ _ _).
      apply list_elem_of_In, filter_In. split; [by apply list_elem_of_In|done]. }
    assert (fetched ≠ []) as Hne by (intros Heq; rewrite Heq in Hin; set_solver).
    rewrite (get_jobs_fetched (exec be) clerk db _ fetched Hne Hexec).
    apply list_elem_of_lookup in Hin as [i Hi].
    destruct (with_recruiter_frame job (JStr "N/A") (JStr "N/A"))
      as (o & Ho & Hframe & _ & _ & He & Hn & _).
    exists (imap (settled clerk) (JObj <$> fetched)), o.
    split; [reflexivity|]. split; [|done].
    apply list_elem_of_lookup. exists i.
    rewrite list_lookup_imap, list_lookup_fmap, Hi. simpl.
    unfold settled. rewrite (enrich_failed clerk i job (Hfails i)).
    by rewrite <- Ho.
Qed.

(** C6. For every job id, on a database that answers the existence check:
    if no job row has that id, DELETE /api/delete-job/:jobId responds 404
    "Job not found", the jobs table is as before and the only request made
    is the existence check (no delete); if exactly one row has the id and
    the delete goes through, it responds 200 with rowsAffected = 1 and
    deletedJob the row as it was, and the row is gone; if the existence check
    passed but the delete touched no row, it responds 500 (not 404), as it
    does when the delete is answered with an error. *)
Theorem delete_job_contract (be : Backend) (jobId : string) (db : Db) :
  fault_of be (find_job jobId) = None →
  let rows := rows_of "jobs" db in
  let out := delete_job (exec be) jobId db in
  (List.filter (has_id jobId) rows = [] →
     out.1 = json 404 (error_body "Job not found")
     ∧ rows_of "jobs" out.2 = rows
     ∧ oplog out.2 = oplog db ++ [find_job jobId])
  ∧ (∀ r : row,
       List.filter (has_id jobId) rows = [r] →
       permits be (find_job jobId) r = true →
       (fault_of be (remove_job jobId) = None →
        permits be (remove_job jobId) r = true →
          out.1 = json 200
                    (JObj (<["message" := JStr "Job deleted successfully"]>
                           (<["deletedJob" := JObj r]>
                           (<["rowsAffected" := JNum 1]> ∅))))
          ∧ rows_of "jobs" out.2 = List.filter (λ x, negb (has_id jobId x)) rows
          ∧ oplog out.2 = oplog db ++ [find_job jobId; remove_job jobId])
       ∧ (fault_of be (remove_job jobId) = None →
          permits be (remove_job jobId) r = false →
            out.1 = json 500 (error_body "Job deletion failed - no rows affected")
            ∧ rows_of "jobs" out.2 = rows)
       ∧ (∀ e, fault_of be (remove_job jobId) = Some (AnswerError e) →
            out.1 = json 500 (error_body "Failed to delete job")
            ∧ rows_of "jobs" out.2 = rows)).
Proof.
  intros Hfind rows out. subst out rows. unfold delete_job.
  fold (find_job jobId). fold (remove_job jobId). split.
  - intros Hnone. rewrite (exec_find_none be jobId db Hfind Hnone). by cbn.
  - intros r Hone Hsee. rewrite (exec_find_one be jobId db Hfind r Hone Hsee).
    cbn [error]. split; [|split].
    + intros Hfault Hmay.
      rewrite (exec_remove be jobId r _ Hfault) by (by rewrite rows_of_log).
      rewrite Hmay. cbn [fmap list_fmap data error truthy negb orb get_length
                          length strict_eq_num get_index0 head default].
      change (Z.of_nat 1 =? 0) with false. cbn [fst snd].
      rewrite rows_of_log, rows_of_set_rows, rows_of_log.
      split; [done|]. split; [done|]. cbn. by rewrite <- app_assoc.
    + intros Hfault Hmay.
      rewrite (exec_remove be jobId r _ Hfault) by (by rewrite rows_of_log).
      rewrite Hmay. cbn [fmap list_fmap data error truthy negb orb get_length
                          length strict_eq_num].
      change (Z.of_nat 0 =? 0) with true. cbn [fst snd].
      by rewrite rows_of_log, rows_of_set_rows, rows_of_log.
    + intros e Hfault. rewrite (exec_answer_error be _ _ e Hfault).
      cbn [error fst snd]. split; [done|]. by rewrite !rows_of_log.
Qed.

(** Deleting job "7" from the seeded table. *)
Lemma delete_job_contract_witness :
  (delete_job (exec service_role) "7" jobs_db).1
    = json 200 (JObj (<["message" := JStr "Job deleted successfully"]>
                      (<["deletedJob" := JObj job7]>
                      (<["rowsAffected" := JNum 1]> ∅)))).
Proof.
  destruct (delete_job_contract service_role "7" jobs_db eq_refl) as [_ Hfound].
  destruct (Hfound job7) as [Hdeleted _];
    [vm_compute; reflexivity | reflexivity |].
  apply Hdeleted; reflexivity.
Defined.

(** The seeded job, its recruiter lookup answered 404, is listed with the
    fallback. *)
Lemma get_jobs_tolerates_lookup_failure_witness :
  ∃ (out : list jsval) (o : row),
    (get_jobs (exec service_role) clerk_404 jobs_db).1 = json 200 (JArr out)
    ∧ JObj o ∈ out
    ∧ o !! "recruiter_email" = Some (JStr "N/A")
    ∧ o !! "recruiter_name" = Some (JStr "N/A")
    ∧ (∀ k, k ∉ added_fields → o !! k = job7 !! k).
Proof.
  destruct (get_jobs_tolerates_lookup_failure service_role clerk_404 jobs_db)
    as [_ Hrow]; [reflexivity | intros; reflexivity |].
  apply Hrow; [| reflexivity | intros; reflexivity].
  change (rows_of "jobs" jobs_db) with [job7]. apply list_elem_of_here.
Defined.

(** The listing of the seeded table, every lookup answered 404: its one
    element is the seeded job with the three fields added. *)
Lemma get_jobs_enrichment_frame_witness :
  ∃ o : row,
    get_jobs (exec service_role) clerk_404 jobs_db
      = (json 200 (JArr [JObj o]), log list_jobs jobs_db)
    ∧ dom o = dom job7 ∪ list_to_set added_fields
    ∧ o !! "id" = Some (JNum 7)
    ∧ o !! "title" = Some (JStr "Engineer")
    ∧ o !! "recruiter_id" = Some (JStr "u1")
    ∧ o !! "recruiter_email" = Some (JStr "N/A")
    ∧ o !! "recruiter_name" = Some (JStr "N/A")
    ∧ o !! "companies" = Some (JObj {[ "name" := JStr "N/A" ]}).
Proof.
  destruct (get_jobs_enrichment_frame (exec service_role) clerk_404 jobs_db
              (log list_jobs jobs_db) [job7])
    as (out & Hrun & Hlen & Hrows); [discriminate | vm_compute; reflexivity |].
  destruct (Hrows 0%nat job7 eq_refl)
    as (o & Ho & Hframe & Hdom & Hco & (e & n & He & Hn & _ & _ & Hfail) & _).
  destruct (Hfail eq_refl) as [-> ->].
  destruct out as [|x [|y out]]; [discriminate | | discriminate].
  injection Ho as ->.
  exists o. split; [exact Hrun|]. split; [exact Hdom|].
  rewrite !Hframe by (vm_compute; set_solver). done.
Defined.

(** ** Failure conventions of the wrappers *)

Ltac await supabase :=
  match goal with
  | |- context [supabase ?q ?s] =>
      destruct (supabase q s) as [[[? [?|]]|?] ?]; cbn
  end.

Ltac branch :=
  match goal with
  | |- context [if ?c then _ else _] => destruct c; cbn
  end.

(** Whenever a database call of a wrapper reports an error, the wrapper
    returns null or throws. *)
Lemma wrapper_error_convention {S : Type} (supabase : client S)
    (supabaseUrl : string) (w : wrapper_call) (s : S) :
  let out := call (traced supabase) supabaseUrl w (s, []) in
  existsb database_error out.2.2 = true →
  returns_null out.1 = true ∨ throws out.1 = true.
Proof.
  destruct w;
    unfold call, ApiJobs.getJobs, ApiJobs.getSavedJobs, ApiJobs.getSingleJob,
      ApiJobs.saveJob, ApiJobs.updateHiringStatus, ApiJobs.getMyJobs,
      ApiJobs.deleteJob, ApiJobs.addNewJob, ApiApplications.applyToJob,
      ApiApplications.updateApplicationStatus, ApiApplications.getApplications;
    unfold traced, mbind, async_bind, ret, mret, async_ret, throw; cbn;
    repeat first [await supabase | branch]; intros H; try discriminate H; auto.
Qed.

Lemma not_null_and_empty (c : completion jsval) :
  returns_null c = true ∨ throws c = true → returns_empty_collection c = false.
Proof. destruct c as [[]|]; simpl; intros [H|H]; done. Qed.

(** What the wrappers of the jobs and applications APIs do on a database
    error: getJobs returns null, saveJob and deleteJob throw; and whenever a
    database call of any of the eleven reports an error, the wrapper returns
    null or throws, so its result is not an empty collection.  The wrappers
    of the companies API are not among them. *)
Lemma wrapper_failure_conventions {S : Type} (supabase : client S)
    (supabaseUrl : string) (e : PostgrestError) :
  (∀ location company_id searchQuery,
     ApiJobs.getJobs (failing e) location company_id searchQuery tt
       = (Returns JNull, tt))
  ∧ (∀ user_id job_id,
       ApiJobs.saveJob (failing e) user_id job_id tt
         = (Throws (Postgrest e), tt))
  ∧ (∀ job_id,
       ApiJobs.deleteJob (failing e) job_id tt
         = (Throws (JsError ("Job not found: " +:+ pg_message e)), tt))
  ∧ (∀ (w : wrapper_call) (s : S),
       let out := call (traced supabase) supabaseUrl w (s, []) in
       existsb database_error out.2.2 = true →
       (returns_null out.1 = true ∨ throws out.1 = true)
       ∧ returns_empty_collection out.1 = false).
Proof.
  repeat split; try reflexivity.
  - by apply wrapper_error_convention.
  - by apply not_null_and_empty, wrapper_error_convention.
Qed.

(** * Further properties *)

(** ** Requests against the in-memory database *)

Lemma exec_state_select (be : Backend) (q : query) (db : Db) (columns : string) :
  q_action q = Select columns → (exec be q db).2 = log q db.
Proof.
  intros Hq. unfold exec. destruct (fault_of be q) as [[e|e]|]; try done.
  unfold run. rewrite Hq. by destruct (q_order q) as [[c a]|].
Qed.

(** X1. [saveJob] stops at its first failing request and rethrows that
    request's error unchanged: it makes one or two requests, every request
    before the last one succeeded, and when the last one fails (the lookup,
    the delete or the insert; an error answer or a throwing client) the
    wrapper throws exactly that error; otherwise it returns. *)
Theorem saveJob_rethrows_first_failure {S : Type} (supabase : client S)
    (user_id job_id : jsval) (s : S) :
  let out := ApiJobs.saveJob (traced supabase) user_id job_id (s, []) in
  ∃ (earlier : list (completion response)) (last : completion response),
    out.2.2 = earlier ++ [last]
    ∧ (length earlier ≤ 1)%nat
    ∧ (∀ b, b ∈ earlier → database_error b = false)
    ∧ match raised last with
      | Some x => out.1 = Throws x
      | None => ∃ v, out.1 = Returns v
      end.
Proof.
  unfold ApiJobs.saveJob, traced, mbind, async_bind, ret, mret, async_ret, throw.
  cbn.
  repeat first [await supabase | branch];
    first
      [ by (eexists [], _; split; [reflexivity|]; split; [simpl; lia|];
            split; [set_solver|]; cbn; eauto)
      | by (eexists [_], _; split; [reflexivity|]; split; [simpl; lia|];
            split; [intros b Hb; apply list_elem_of_singleton in Hb as ->; done|];
            cbn; eauto) ].
Qed.

(** A first save on a backend that refuses writes: the lookup succeeds, the
    insert is refused, and the refusal is what the wrapper throws. *)
Lemma saveJob_rethrows_first_failure_witness :
  (ApiJobs.saveJob (traced (exec read_only)) (JStr "user_1") (JNum 7)
     (one_table "saved_jobs" [], [])).1 = Throws (Postgrest rls_violation).
Proof.
  destruct (saveJob_rethrows_first_failure (exec read_only) (JStr "user_1") (JNum 7)
              (one_table "saved_jobs" []))
    as (earlier & last & Htrace & _ & _ & Hlast).
  change ([Returns {| data := JArr []; error := None |}]
            ++ [Returns {| data := JNull; error := Some rls_violation |}]
          = earlier ++ [last]) in Htrace.
  apply app_inj_tail in Htrace as [_ <-]. exact Hlast.
Defined.

Lemma eq_text_inj (cell : option jsval) (a b : jsval) :
  eq_text cell a = true → eq_text cell b = true → text_of a = text_of b.
Proof.
  unfold eq_text. destruct (cell ≫= text_of) as [t|]; [|done].
  destruct (text_of a) as [ta|], (text_of b) as [tb|]; try done.
  rewrite !String.eqb_eq. by intros <- <-.
Qed.

Lemma save_record_distinct (u j u' j' : jsval) (r : row) :
  text_of u ≠ text_of u' ∨ text_of j ≠ text_of j' →
  save_record u j r = true → save_record u' j' r = false.
Proof.
  intros Hdiff Hr. unfold save_record in *.
  apply andb_true_iff in Hr as [Hu Hj].
  destruct (eq_text (r !! "user_id") u') eqn:Hu'; [|done].
  destruct (eq_text (r !! "job_id") j') eqn:Hj'; [|done].
  destruct Hdiff as [H|H]; destruct H; eauto using eq_text_inj.
Qed.

Lemma existsb_filter_other {A : Type} (f g : A → bool) (l : list A) :
  (∀ x, f x = true → g x = false) →
  existsb g (List.filter (λ x, negb (f x)) l) = existsb g l.
Proof.
  intros Hfg. induction l as [|x l IH]; [done|]. simpl.
  destruct (f x) eqn:Hf; simpl; [by rewrite (Hfg x Hf)|by rewrite IH].
Qed.

(** X2. [saveJob] toggles one pair only: whether any other (user, job) pair
    is saved is the same after the call as before it, whether the call saved
    or unsaved its own pair. *)
Theorem saveJob_other_pairs (be : Backend) (user_id job_id other_user other_job : jsval)
    (db db' : Db) (out : completion jsval) :
  (∀ q, q_from q = "saved_jobs" → fault_of be q = None) →
  (∀ q r, q_from q = "saved_jobs" →
     eq_text (r !! "user_id") user_id = true → permits be q r = true) →
  is_Some (text_of user_id) →
  is_Some (text_of job_id) →
  text_of user_id ≠ text_of other_user ∨ text_of job_id ≠ text_of other_job →
  ApiJobs.saveJob (exec be) user_id job_id db = (out, db') →
  is_saved db' other_user other_job = is_saved db other_user other_job.
Proof.
  intros Hfault Hown Hu Hj Hdiff Hrun.
  destruct (is_saved db user_id job_id) eqn:Hstate.
  - destruct (saveJob_saved be user_id job_id Hfault Hown db Hstate)
      as (db1 & Hrun1 & Hrows & _).
    rewrite Hrun1 in Hrun. injection Hrun as _ <-.
    unfold is_saved. rewrite Hrows. apply existsb_filter_other.
    intros r. by apply save_record_distinct.
  - destruct (saveJob_unsaved be user_id job_id Hfault Hown Hu Hj db Hstate)
      as (r & db1 & Hrun1 & Hru & Hrj & Hrows & Hsaved1).
    rewrite Hrun1 in Hrun. injection Hrun as _ <-.
    unfold is_saved. rewrite Hrows, existsb_app. simpl.
    rewrite (save_record_distinct user_id job_id other_user other_job r Hdiff).
    + by rewrite !orb_false_r.
    + unfold save_record. rewrite Hru, Hrj. by rewrite !eq_text_refl.
Qed.

Lemma saveJob_other_pairs_witness :
  is_saved (ApiJobs.saveJob (exec service_role) (JStr "user_1") (JNum 7)
              (one_table "saved_jobs" [])).2 (JStr "user_2") (JNum 7)
    = is_saved (one_table "saved_jobs" []) (JStr "user_2") (JNum 7).
Proof.
  apply (saveJob_other_pairs service_role (JStr "user_1") (JNum 7) (JStr "user_2")
           (JNum 7) (one_table "saved_jobs" []) _
           (ApiJobs.saveJob (exec service_role) (JStr "user_1") (JNum 7)
              (one_table "saved_jobs" [])).1);
    [ reflexivity | reflexivity | eexists; reflexivity | eexists; reflexivity
    | left; discriminate | reflexivity ].
Defined.

Section ById.
Variables (be : Backend) (q : query) (v : jsval).
Hypothesis by_id : q_filters q = [Eq "id" v].

Lemma hit_by_id (r : row) : hit be q r = id_is v r && permits be q r.
Proof. unfold hit, id_is. rewrite by_id. simpl. by rewrite andb_true_r. Qed.

Lemma filter_by_id_nil (rows : list row) :
  List.filter (id_is v) rows = [] → List.filter (hit be q) rows = [].
Proof.
  induction rows as [|r rows IH]; simpl; [done|]. rewrite hit_by_id.
  destruct (id_is v r); simpl; [discriminate|]. exact IH.
Qed.

Lemma filter_by_id_nil_not (rows : list row) :
  List.filter (id_is v) rows = [] →
  List.filter (λ r, negb (hit be q r)) rows = rows.
Proof.
  induction rows as [|r rows IH]; simpl; [done|]. rewrite hit_by_id.
  destruct (id_is v r); simpl; [discriminate|]. intros H. by rewrite IH.
Qed.

Lemma filter_by_id_one (rows : list row) (r : row) :
  List.filter (id_is v) rows = [r] →
  List.filter (hit be q) rows = (if permits be q r then [r] else [])
  ∧ List.filter (λ x, negb (hit be q x)) rows
      = (if permits be q r then List.filter (λ x, negb (id_is v x)) rows else rows).
Proof.
  induction rows as [|x rows IH]; simpl; [done|]. rewrite hit_by_id.
  destruct (id_is v x) eqn:Hx; simpl.
  - intros [= -> Hrest].
    rewrite (filter_by_id_nil rows Hrest), (filter_by_id_nil_not rows Hrest).
    assert (List.filter (λ x, negb (id_is v x)) rows = rows) as ->.
    { clear IH. induction rows as [|y rows IH]; simpl in *; [done|].
      destruct (id_is v y); simpl in *; [discriminate|]. by rewrite IH. }
    by destruct (permits be q r).
  - intros Hrest. destruct (IH Hrest) as [-> ->]. by destruct (permits be q r).
Qed.

End ById.

Lemma filter_id_gone (v : jsval) (rows : list row) :
  List.filter (id_is v) (List.filter (λ x, negb (id_is v x)) rows) = [].
Proof.
  induction rows as [|r rows IH]; simpl; [done|].
  destruct (id_is v r) eqn:Hr; simpl; [done|]. by rewrite Hr.
Qed.

Section FindRemove.
Variables (be : Backend) (v : jsval) (db : Db).

Lemma exec_find_by_id_none :
  fault_of be (find_by_id v) = None →
  List.filter (id_is v) (rows_of "jobs" db) = [] →
  exec be (find_by_id v) db
    = (Returns {| data := JNull; error := Some no_rows |}, log (find_by_id v) db).
Proof.
  intros Hfault Hnone. unfold exec. rewrite Hfault.
  rewrite (run_select be (find_by_id v) db "*" eq_refl eq_refl).
  change (q_from (find_by_id v)) with "jobs".
  by rewrite (filter_by_id_nil be (find_by_id v) v eq_refl _ Hnone).
Qed.

Lemma exec_find_by_id_one (r : row) :
  fault_of be (find_by_id v) = None →
  List.filter (id_is v) (rows_of "jobs" db) = [r] →
  permits be (find_by_id v) r = true →
  exec be (find_by_id v) db
    = (Returns {| data := JObj r; error := None |}, log (find_by_id v) db).
Proof.
  intros Hfault Hone Hsee. unfold exec. rewrite Hfault.
  rewrite (run_select be (find_by_id v) db "*" eq_refl eq_refl).
  change (q_from (find_by_id v)) with "jobs".
  destruct (filter_by_id_one be (find_by_id v) v eq_refl _ r Hone) as [-> _].
  by rewrite Hsee.
Qed.

Lemma exec_remove_by_id (r : row) :
  fault_of be (remove_by_id v) = None →
  List.filter (id_is v) (rows_of "jobs" db) = [r] →
  exec be (remove_by_id v) db
    = (Returns {| data := JArr (JObj <$> (if permits be (remove_by_id v) r
                                          then [r] else []));
                  error := None |},
       log (remove_by_id v)
         (set_rows "jobs"
            (if permits be (remove_by_id v) r
             then List.filter (λ x, negb (id_is v x)) (rows_of "jobs" db)
             else rows_of "jobs" db) db)).
Proof.
  intros Hfault Hone. unfold exec. rewrite Hfault.
  rewrite (run_delete be (remove_by_id v) db eq_refl).
  change (q_from (remove_by_id v)) with "jobs".
  by destruct (filter_by_id_one be (remove_by_id v) v eq_refl _ r Hone) as [-> ->].
Qed.

End FindRemove.

(** X3. The [deleteJob] wrapper: when no job has the id it throws
    "Job not found: .." after the one lookup and the table is as before; when
    one job has it and the database lets the caller delete it, the wrapper
    returns that row and the table has lost exactly the rows of that id; when
    row level security hides the row from the delete, it throws "Job was not
    deleted - check permissions" and the table is as before. *)
Theorem deleteJob_wrapper_contract (be : Backend) (job_id : jsval) (db : Db) :
  fault_of be (find_by_id job_id) = None →
  let rows := rows_of "jobs" db in
  let out := ApiJobs.deleteJob (exec be) job_id db in
  (List.filter (id_is job_id) rows = [] →
     out.1 = Throws (JsError ("Job not found: " +:+ pg_message no_rows))
     ∧ rows_of "jobs" out.2 = rows
     ∧ oplog out.2 = oplog db ++ [find_by_id job_id])
  ∧ (∀ r : row,
       List.filter (id_is job_id) rows = [r] →
       permits be (find_by_id job_id) r = true →
       fault_of be (remove_by_id job_id) = None →
       (permits be (remove_by_id job_id) r = true →
          out.1 = Returns (JArr [JObj r])
          ∧ rows_of "jobs" out.2 = List.filter (λ x, negb (id_is job_id x)) rows)
       ∧ (permits be (remove_by_id job_id) r = false →
            out.1 = Throws (JsError "Job was not deleted - check permissions")
            ∧ rows_of "jobs" out.2 = rows)).
Proof.
  intros Hfind rows out. subst rows out.
  unfold ApiJobs.deleteJob, mbind, async_bind.
  fold (find_by_id job_id) (remove_by_id job_id).
  split.
  - intros Hnone. rewrite (exec_find_by_id_none be job_id db Hfind Hnone). by cbn.
  - intros r Hone Hsee Hremove.
    rewrite (exec_find_by_id_one be job_id db r Hfind Hone Hsee). cbn [error].
    rewrite (exec_remove_by_id be job_id _ r Hremove) by (by rewrite rows_of_log).
    split; intros ->; cbn [fmap list_fmap error data truthy negb orb get_length
                           length strict_eq_num].
    + change (Z.of_nat 1 =? 0) with false.
      unfold ret, mret, async_ret. cbn [fst snd].
      by rewrite rows_of_log, rows_of_set_rows, rows_of_log.
    + change (Z.of_nat 0 =? 0) with true. unfold throw. cbn [fst snd].
      by rewrite rows_of_log, rows_of_set_rows, rows_of_log.
Qed.

Lemma deleteJob_wrapper_contract_witness :
  (ApiJobs.deleteJob (exec service_role) (JNum 7) jobs_db).1
    = Returns (JArr [JObj job7])
  ∧ rows_of "jobs" (ApiJobs.deleteJob (exec service_role) (JNum 7) jobs_db).2 = [].
Proof.
  destruct (deleteJob_wrapper_contract service_role (JNum 7) jobs_db eq_refl)
    as [_ Hfound].
  destruct (Hfound job7) as [Hdeleted _];
    [vm_compute; reflexivity | reflexivity | reflexivity |].
  destruct Hdeleted as [Hout Hrows]; [reflexivity|].
  split; [exact Hout|]. rewrite Hrows. vm_compute. reflexivity.
Defined.

Lemma delete_job_removed (be : Backend) (jobId : string) (db : Db) (r : row) :
  fault_of be (find_job jobId) = None →
  fault_of be (remove_job jobId) = None →
  List.filter (has_id jobId) (rows_of "jobs" db) = [r] →
  permits be (find_job jobId) r = true →
  permits be (remove_job jobId) r = true →
  ∃ db1,
    delete_job (exec be) jobId db
      = (json 200 (JObj (<["message" := JStr "Job deleted successfully"]>
                         (<["deletedJob" := JObj r]>
                         (<["rowsAffected" := JNum 1]> ∅)))), db1)
    ∧ rows_of "jobs" db1
        = List.filter (λ x, negb (has_id jobId x)) (rows_of "jobs" db).
Proof.
  intros Hfind Hremove Hone Hsee Hmay. unfold delete_job.
  fold (find_job jobId) (remove_job jobId).
  rewrite (exec_find_one be jobId db Hfind r Hone Hsee). cbn [error].
  rewrite (exec_remove be jobId r _ Hremove) by (by rewrite rows_of_log).
  rewrite Hmay. cbn [fmap list_fmap data error truthy negb orb get_length
                     length strict_eq_num get_index0 head default].
  change (Z.of_nat 1 =? 0) with false. eexists. split; [reflexivity|].
  by rewrite rows_of_log, rows_of_set_rows, rows_of_log.
Qed.

Lemma delete_job_missing (be : Backend) (jobId : string) (db : Db) :
  fault_of be (find_job jobId) = None →
  List.filter (has_id jobId) (rows_of "jobs" db) = [] →
  delete_job (exec be) jobId db
    = (json 404 (error_body "Job not found"), log (find_job jobId) db).
Proof.
  intros Hfind Hnone. unfold delete_job. fold (find_job jobId).
  by rewrite (exec_find_none be jobId db Hfind Hnone).
Qed.

(** X4. DELETE /api/delete-job/:jobId repeated: the first request for an
    existing job answers 200, the second answers 404 "Job not found" and
    leaves the table as the first left it, with no row of that id. *)
Theorem delete_job_twice (be : Backend) (jobId : string) (db : Db) (r : row) :
  fault_of be (find_job jobId) = None →
  fault_of be (remove_job jobId) = None →
  List.filter (has_id jobId) (rows_of "jobs" db) = [r] →
  permits be (find_job jobId) r = true →
  permits be (remove_job jobId) r = true →
  let first := delete_job (exec be) jobId db in
  let second := delete_job (exec be) jobId first.2 in
  status first.1 = 200
  ∧ second.1 = json 404 (error_body "Job not found")
  ∧ rows_of "jobs" second.2 = rows_of "jobs" first.2
  ∧ List.filter (has_id jobId) (rows_of "jobs" first.2) = [].
Proof.
  intros Hfind Hremove Hone Hsee Hmay first second. subst second first.
  destruct (delete_job_removed be jobId db r Hfind Hremove Hone Hsee Hmay)
    as (db1 & -> & Hrows).
  cbn [fst snd].
  assert (List.filter (has_id jobId) (rows_of "jobs" db1) = []) as Hgone.
  { rewrite Hrows. apply (filter_id_gone (JStr jobId)). }
  rewrite (delete_job_missing be jobId db1 Hfind Hgone). cbn [fst snd].
  by rewrite rows_of_log.
Qed.

Lemma delete_job_twice_witness :
  let first := delete_job (exec service_role) "7" jobs_db in
  let second := delete_job (exec service_role) "7" first.2 in
  status first.1 = 200
  ∧ second.1 = json 404 (error_body "Job not found")
  ∧ rows_of "jobs" second.2 = rows_of "jobs" first.2
  ∧ List.filter (has_id "7") (rows_of "jobs" first.2) = [].
Proof.
  apply (delete_job_twice service_role "7" jobs_db job7);
    [ reflexivity | reflexivity | vm_compute; reflexivity | reflexivity
    | reflexivity ].
Defined.

Lemma get_jobs_state {S : Type} (supabase : client S)
    (clerk : nat → string → fetch_answer) (s : S) :
  (get_jobs supabase clerk s).2 = (supabase list_jobs s).2.
Proof.
  unfold get_jobs. fold list_jobs.
  destruct (supabase list_jobs s) as [[r|e] s']; [|done].
  destruct (error r); [done|].
  destruct (negb (truthy (data r)) || strict_eq_num (get_length (data r)) 0); [done|].
  destruct (data r); try done. by destruct (promise_all _).
Qed.

(** X5. GET /api/get-jobs only reads: whatever the database and the
    identity provider answer, the tables and sequences are unchanged and
    exactly one request, the listing of "jobs", has been made. *)
Theorem get_jobs_read_only (be : Backend) (clerk : nat → string → fetch_answer)
    (db : Db) :
  let after := (get_jobs (exec be) clerk db).2 in
  tables after = tables db
  ∧ sequences after = sequences db
  ∧ oplog after = oplog db ++ [list_jobs].
Proof.
  cbv zeta. rewrite get_jobs_state.
  by rewrite (exec_state_select be list_jobs db "*" eq_refl).
Qed.

(** X6. GET /api/get-jobs answers 500 exactly when the listing request
    fails and 200 otherwise; no answer of the identity provider changes the
    status. *)
Theorem get_jobs_status (be : Backend) (clerk : nat → string → fetch_answer)
    (db : Db) :
  status (get_jobs (exec be) clerk db).1
    = match fault_of be list_jobs with
      | None => 200
      | Some _ => 500
      end.
Proof.
  destruct (fault_of be list_jobs) as [[e|e]|] eqn:Hfault.
  - unfold get_jobs. fold list_jobs.
    by rewrite (exec_answer_error be list_jobs db e Hfault).
  - unfold get_jobs. fold list_jobs. unfold exec. by rewrite Hfault.
  - pose proof (exec_list_jobs be db Hfault) as Hexec.
    destruct (sort_by be "created_at" false
                (List.filter (permits be list_jobs) (rows_of "jobs" db)))
      as [|r fetched] eqn:Hfetched.
    + unfold get_jobs. fold list_jobs. by rewrite Hexec.
    + by rewrite (get_jobs_fetched (exec be) clerk db (log list_jobs db)
                    (r :: fetched)).
Qed.




(** X8. When the lookup of a job's recruiter succeeds, the listed job
    carries the [email_address] of the first entry of the profile's
    [email_addresses] and the profile's [first_name], each replaced by "N/A"
    when it is not truthy; later addresses are never used. *)
Theorem get_jobs_uses_first_email {S : Type} (supabase : client S)
    (clerk : nat → string → fetch_answer) (s s' : S) (rows : list row)
    (i : nat) (job recruiter : row) (first : jsval) (others : list jsval) :
  supabase list_jobs s
    = (Returns {| data := JArr (JObj <$> rows); error := None |}, s') →
  rows !! i = Some job →
  clerk i (recruiter_url job) = FetchResponse true (Returns (JObj recruiter)) →
  recruiter !! "email_addresses" = Some (JArr (first :: others)) →
  ∃ (out : list jsval) (o : row),
    get_jobs supabase clerk s = (json 200 (JArr out), s')
    ∧ out !! i = Some (JObj o)
    ∧ o !! "recruiter_email"
        = Some (or_else (opt_named first "email_address") (JStr "N/A"))
    ∧ o !! "recruiter_name"
        = Some (or_else (default JUndefined (recruiter !! "first_name")) (JStr "N/A")).
Proof.
  intros Hq Hjob Hclerk Haddr.
  assert (rows ≠ []) as Hrows by (intros ->; done).
  destruct (with_recruiter_frame job
              (or_else (opt_named first "email_address") (JStr "N/A"))
              (or_else (default JUndefined (recruiter !! "first_name")) (JStr "N/A")))
    as (o & Ho & _ & _ & _ & Hoe & Hon & _).
  eexists _, o. split; [by apply get_jobs_fetched|].
  split; [|done].
  rewrite list_lookup_imap, list_lookup_fmap, Hjob. simpl. f_equal.
  unfold settled, enrich, member. cbn [nullish get_named].
  fold (recruiter_url job). rewrite Hclerk. cbn [nullish get_named].
  rewrite Haddr. cbn [default]. exact Ho.
Qed.

Lemma get_jobs_uses_first_email_witness :
  ∃ (out : list jsval) (o : row),
    get_jobs (exec service_role) clerk_u1 jobs_db
      = (json 200 (JArr out), log list_jobs jobs_db)
    ∧ out !! 0%nat = Some (JObj o)
    ∧ o !! "recruiter_email" = Some (JStr "u1@example.com")
    ∧ o !! "recruiter_name" = Some (JStr "Uma").
Proof.
  destruct (get_jobs_uses_first_email (exec service_role) clerk_u1 jobs_db
              (log list_jobs jobs_db) [job7] 0 job7 recruiter_u1
              (JObj {[ "email_address" := JStr "u1@example.com" ]}) [])
    as (out & o & Hrun & Hfirst & Hemail & Hname);
    [vm_compute; reflexivity | reflexivity | reflexivity | reflexivity |].
  exists out, o. split; [exact Hrun|]. split; [exact Hfirst|].
  split; [exact Hemail | exact Hname].
Defined.

Lemma stored_lookup (id : Z) (r : row) (k : string) (v : jsval) :
  r !! k = Some v → v ≠ JUndefined → stored id r !! k = Some v.
Proof.
  intros Hk Hv. unfold stored.
  assert (omap defined r !! k = Some v) as Hdef.
  { rewrite lookup_omap, Hk. simpl. by destruct v. }
  destruct (omap defined r !! "id") eqn:Hid; [done|].
  rewrite lookup_insert_ne; [done|]. intros <-. congruence.
Qed.

Lemma stored_has_id (id : Z) (r : row) : is_Some (stored id r !! "id").
Proof.
  unfold stored. destruct (omap defined r !! "id") eqn:Hid; [by rewrite Hid|].
  by rewrite lookup_insert_eq.
Qed.

Lemma stored_fresh_id (id : Z) (r : row) :
  r !! "id" = None → stored id r !! "id" = Some (JNum id).
Proof.
  intros Hid. unfold stored. rewrite lookup_omap, Hid. simpl.
  by rewrite lookup_insert_eq.
Qed.

Lemma exec_insert_one (be : Backend) (table : string) (r : row) (db : Db) :
  fault_of be (insert_one table r) = None →
  permits be (insert_one table r) (stored (next_id table db) r) = true →
  ∃ db1,
    exec be (insert_one table r) db
      = (Returns {| data := JArr [JObj (stored (next_id table db) r)];
                    error := None |}, db1)
    ∧ rows_of table db1 = rows_of table db ++ [stored (next_id table db) r]
    ∧ (∀ other, other ≠ table → rows_of other db1 = rows_of other db).
Proof.
  intros Hfault Hpermit. unfold exec. rewrite Hfault. unfold run.
  cbn [insert_one returning from q_action q_from imap forallb].
  rewrite Z.add_0_r, Hpermit. cbn [andb].
  eexists. split; [reflexivity|]. split.
  - rewrite rows_of_log. unfold rows_of at 1. cbn [tables].
    by rewrite lookup_insert_eq.
  - intros other Hother. rewrite rows_of_log. unfold rows_of. cbn [tables].
    by rewrite lookup_insert_ne.
Qed.

Lemma get_jobs_lists_row (be : Backend) (clerk : nat → string → fetch_answer)
    (db : Db) (job : row) :
  fault_of be list_jobs = None →
  (∀ column ascending rows, sort_by be column ascending rows ≡ₚ rows) →
  job ∈ rows_of "jobs" db →
  permits be list_jobs job = true →
  ∃ (out : list jsval) (o : row),
    (get_jobs (exec be) clerk db).1 = json 200 (JArr out)
    ∧ JObj o ∈ out
    ∧ (∀ k, k ∉ added_fields → o !! k = job !! k).
Proof.
  intros Hfault Hsort Hjob Hsee.
  pose proof (exec_list_jobs be db Hfault) as Hexec.
  set (fetched := sort_by be "created_at" false
                    (List.filter (permits be list_jobs) (rows_of "jobs" db))) in *.
  assert (job ∈ fetched) as Hin.
  { subst fetched. rewrite (Hsort _ _ _).
    apply list_elem_of_In, filter_In. split; [by apply list_elem_of_In|done]. }
  assert (fetched ≠ []) as Hne by (intros Heq; rewrite Heq in Hin; set_solver).
  rewrite (get_jobs_fetched (exec be) clerk db _ fetched Hne Hexec).
  apply list_elem_of_lookup in Hin as [i Hi].
  destruct (enrich_object clerk i job) as (e & n & Henrich).
  destruct (with_recruiter_frame job e n) as (o & Ho & Hframe & _).
  exists (imap (settled clerk) (JObj <$> fetched)), o.
  split; [reflexivity|]. split; [|done].
  apply list_elem_of_lookup. exists i.
  rewrite list_lookup_imap, list_lookup_fmap, Hi. simpl.
  unfold settled. by rewrite Henrich, Ho.
Qed.

(** X9. A job created through [addNewJob] is stored with every defined
    field it was given and with an id, as the last row of "jobs", and the
    next GET /api/get-jobs lists it with those fields. *)
Theorem addNewJob_is_listed (be : Backend) (clerk : nat → string → fetch_answer)
    (jobData : row) (db : Db) :
  fault_of be (insert_one "jobs" jobData) = None →
  fault_of be list_jobs = None →
  (∀ q r, permits be q r = true) →
  (∀ column ascending rows, sort_by be column ascending rows ≡ₚ rows) →
  ∃ (r : row) (db1 : Db),
    ApiJobs.addNewJob (exec be) jobData db = (Returns (JArr [JObj r]), db1)
    ∧ (∀ k v, jobData !! k = Some v → v ≠ JUndefined → r !! k = Some v)
    ∧ is_Some (r !! "id")
    ∧ rows_of "jobs" db1 = rows_of "jobs" db ++ [r]
    ∧ ∃ (out : list jsval) (o : row),
        (get_jobs (exec be) clerk db1).1 = json 200 (JArr out)
        ∧ JObj o ∈ out
        ∧ (∀ k, k ∉ added_fields → o !! k = r !! k).
Proof.
  intros Hinsert Hlist Hpermit Hsort.
  destruct (exec_insert_one be "jobs" jobData db Hinsert (Hpermit _ _))
    as (db1 & Hexec & Hrows & _).
  exists (stored (next_id "jobs" db) jobData), db1.
  split; [|split; [|split; [|split]]].
  - unfold ApiJobs.addNewJob, mbind, async_bind. fold (insert_one "jobs" jobData).
    by rewrite Hexec.
  - intros k v. apply stored_lookup.
  - apply stored_has_id.
  - exact Hrows.
  - apply (get_jobs_lists_row be clerk db1 _ Hlist Hsort); [|apply Hpermit].
    rewrite Hrows. set_solver.
Qed.

Lemma addNewJob_is_listed_witness :
  ∃ (r : row) (db1 : Db),
    ApiJobs.addNewJob (exec service_role) draft jobs_db
      = (Returns (JArr [JObj r]), db1)
    ∧ r !! "title" = Some (JStr "Designer")
    ∧ rows_of "jobs" db1 = [job7; r]
    ∧ ∃ (out : list jsval) (o : row),
        (get_jobs (exec service_role) clerk_404 db1).1 = json 200 (JArr out)
        ∧ JObj o ∈ out
        ∧ o !! "title" = r !! "title".
Proof.
  destruct (addNewJob_is_listed service_role clerk_404 draft jobs_db)
    as (r & db1 & Hrun & Hfields & _ & Hrows & out & o & Hlist & Ho & Hsame);
    [reflexivity | reflexivity | intros; reflexivity | intros; reflexivity |].
  exists r, db1. split; [exact Hrun|]. split; [|split; [exact Hrows|]].
  - apply Hfields; [reflexivity | discriminate].
  - exists out, o. split; [exact Hlist|]. split; [exact Ho|].
    apply Hsame. vm_compute. set_solver.
Defined.

Lemma exec_update_where (be : Backend) (table column : string) (v : jsval)
    (field : string) (x : jsval) (db : Db) :
  fault_of be (update_where table column v field x) = None →
  (∀ r, permits be (update_where table column v field x) r = true) →
  exec be (update_where table column v field x) db
    = (Returns {| data := JArr (JObj <$> (<[field := x]> <$>
                       List.filter (cell_is column v) (rows_of table db)));
                  error := None |},
       log (update_where table column v field x)
         (set_rows table (set_where column v field x <$> rows_of table db) db)).
Proof.
  intros Hfault Hpermit. unfold exec. rewrite Hfault. unfold run.
  cbn [update_where returning eq add_filter from q_action q_from].
  fold (update_where table column v field x).
  assert (∀ r, hit be (update_where table column v field x) r = cell_is column v r)
    as Hhit.
  { intros r. unfold hit. rewrite Hpermit. cbn. by rewrite !andb_true_r. }
  rewrite (List.filter_ext _ _ Hhit).
  assert ((λ r : row, {[ field := x ]} ∪ r) <$>
            List.filter (cell_is column v) (rows_of table db)
          = <[field := x]> <$> List.filter (cell_is column v) (rows_of table db))
    as ->.
  { apply list_fmap_ext. intros i r _. symmetry. apply insert_union_singleton_l. }
  assert ((λ r : row, if hit be (update_where table column v field x) r
                      then {[ field := x ]} ∪ r else r) <$> rows_of table db
          = set_where column v field x <$> rows_of table db) as ->.
  { apply list_fmap_ext. intros i r _. rewrite Hhit. unfold set_where.
    destruct (cell_is column v r); [|done]. symmetry. apply insert_union_singleton_l. }
  reflexivity.
Qed.

Lemma set_where_none (column : string) (v : jsval) (field : string) (x : jsval)
    (rows : list row) :
  List.filter (cell_is column v) rows = [] →
  set_where column v field x <$> rows = rows.
Proof.
  induction rows as [|r rows IH]; [done|]. rewrite fmap_cons.
  cbn [List.filter]. unfold set_where at 1.
  destruct (cell_is column v r); [done|]. intros H. by rewrite IH.
Qed.

(** X10. [updateHiringStatus] touches one field of the jobs of one id: the
    table keeps its rows in place, a row of another id is unchanged, a row of
    that id differs at most in [isOpen], which holds the new value, and the
    wrapper returns the changed rows; when no job has the id it returns an
    empty array and the table is as before. *)
Theorem updateHiringStatus_frame (be : Backend) (job_id isOpen : jsval) (db : Db) :
  fault_of be (update_where "jobs" "id" job_id "isOpen" isOpen) = None →
  (∀ r, permits be (update_where "jobs" "id" job_id "isOpen" isOpen) r = true) →
  isOpen ≠ JUndefined →
  let rows := rows_of "jobs" db in
  let out := ApiJobs.updateHiringStatus (exec be) job_id isOpen db in
  out.1 = Returns (JArr (JObj <$> (<["isOpen" := isOpen]> <$>
                      List.filter (cell_is "id" job_id) rows)))
  ∧ rows_of "jobs" out.2 = set_where "id" job_id "isOpen" isOpen <$> rows
  ∧ (∀ (i : nat) (r : row), rows !! i = Some r →
       ∃ r', rows_of "jobs" out.2 !! i = Some r'
         ∧ (∀ k, k ≠ "isOpen" → r' !! k = r !! k)
         ∧ (cell_is "id" job_id r = true → r' !! "isOpen" = Some isOpen)
         ∧ (cell_is "id" job_id r = false → r' = r))
  ∧ (List.filter (cell_is "id" job_id) rows = [] →
       out.1 = Returns (JArr []) ∧ rows_of "jobs" out.2 = rows).
Proof.
  intros Hfault Hpermit _ rows out. subst rows out.
  unfold ApiJobs.updateHiringStatus, mbind, async_bind.
  fold (update_where "jobs" "id" job_id "isOpen" isOpen).
  rewrite (exec_update_where be "jobs" "id" job_id "isOpen" isOpen db Hfault Hpermit).
  cbn [error data fst snd]. unfold ret, mret, async_ret. cbn [fst snd].
  rewrite rows_of_log, rows_of_set_rows.
  split; [done|]. split; [done|]. split.
  - intros i r Hr. rewrite list_lookup_fmap, Hr. simpl. eexists. split; [done|].
    unfold set_where. destruct (cell_is "id" job_id r).
    + split; [|split; [|done]].
      * intros k Hk. by rewrite lookup_insert_ne.
      * intros _. apply lookup_insert_eq.
    + done.
  - intros Hnone. rewrite Hnone. split; [done|]. by apply set_where_none.
Qed.

Lemma updateHiringStatus_frame_witness :
  let out := ApiJobs.updateHiringStatus (exec service_role) (JNum 7) (JBool false)
               jobs_db in
  out.1 = Returns (JArr [JObj (<["isOpen" := JBool false]> job7)])
  ∧ rows_of "jobs" out.2 = [<["isOpen" := JBool false]> job7].
Proof.
  destruct (updateHiringStatus_frame service_role (JNum 7) (JBool false) jobs_db)
    as (Hout & Hrows & _); [reflexivity | intros; reflexivity | discriminate |].
  split; [exact Hout | exact Hrows].
Defined.

(** X11. [updateApplicationStatus] selects by job, not by application:
    every application of the job gets the new status and no other field of
    it changes, applications of other jobs are unchanged, and the changed rows
    are returned; when the job has no application the wrapper returns null
    and the table is as before. *)
Theorem updateApplicationStatus_whole_job (be : Backend) (job_id status : jsval)
    (db : Db) :
  fault_of be (update_where "applications" "job_id" job_id "status" status) = None →
  (∀ r, permits be (update_where "applications" "job_id" job_id "status" status) r
          = true) →
  status ≠ JUndefined →
  let applications := rows_of "applications" db in
  let of_job := List.filter (cell_is "job_id" job_id) applications in
  let out := ApiApplications.updateApplicationStatus (exec be) job_id status db in
  (of_job = [] →
     out.1 = Returns JNull ∧ rows_of "applications" out.2 = applications)
  ∧ (of_job ≠ [] →
       out.1 = Returns (JArr (JObj <$> (<["status" := status]> <$> of_job)))
       ∧ length (rows_of "applications" out.2) = length applications
       ∧ ∀ (i : nat) (r : row), applications !! i = Some r →
           ∃ r', rows_of "applications" out.2 !! i = Some r'
             ∧ (∀ k, k ≠ "status" → r' !! k = r !! k)
             ∧ (cell_is "job_id" job_id r = true → r' !! "status" = Some status)
             ∧ (cell_is "job_id" job_id r = false → r' = r)).
Proof.
  intros Hfault Hpermit _ applications of_job out. subst applications of_job out.
  unfold ApiApplications.updateApplicationStatus, mbind, async_bind.
  fold (update_where "applications" "job_id" job_id "status" status).
  rewrite (exec_update_where be "applications" "job_id" job_id "status" status db
             Hfault Hpermit).
  cbn [error data nullish get_length]. rewrite !length_fmap.
  split.
  - intros Hnone. rewrite Hnone. cbn [length strict_eq_num].
    change (Z.of_nat 0 =? 0) with true. unfold ret, mret, async_ret.
    cbn [fst snd]. rewrite rows_of_log, rows_of_set_rows.
    split; [done|]. by apply set_where_none.
  - intros Hsome.
    destruct (List.filter (cell_is "job_id" job_id) (rows_of "applications" db))
      as [|a rest] eqn:Hfilter; [done|].
    cbn [length strict_eq_num].
    destruct (Z.eqb_spec (Z.of_nat (Datatypes.S (length rest))) 0) as [Hz|_]; [lia|].
    unfold ret, mret, async_ret. cbn [fst snd].
    rewrite rows_of_log, rows_of_set_rows.
    split; [done|]. split; [by rewrite length_fmap|].
    intros i r Hr. rewrite list_lookup_fmap, Hr. simpl. eexists. split; [done|].
    unfold set_where. destruct (cell_is "job_id" job_id r).
    + split; [|split; [|done]].
      * intros k Hk. by rewrite lookup_insert_ne.
      * intros _. apply lookup_insert_eq.
    + done.
Qed.

Lemma updateApplicationStatus_whole_job_witness :
  let db := one_table "applications" [<["id" := JNum 1]> application;
                                      <["id" := JNum 2]> application] in
  let out := ApiApplications.updateApplicationStatus (exec service_role) (JNum 7)
               (JStr "hired") db in
  ∃ r', rows_of "applications" out.2 !! 1%nat = Some r'
    ∧ r' !! "status" = Some (JStr "hired")
    ∧ r' !! "id" = Some (JNum 2).
Proof.
  intros db out.
  destruct (updateApplicationStatus_whole_job service_role (JNum 7) (JStr "hired") db)
    as [_ Hsome]; [reflexivity | intros; reflexivity | discriminate |].
  destruct Hsome as (_ & _ & Hrows); [discriminate|].
  destruct (Hrows 1%nat (<["id" := JNum 2]> application) eq_refl)
    as (r' & Hr' & Hsame & Hstatus & _).
  exists r'. split; [exact Hr'|]. split; [apply Hstatus; reflexivity|].
  rewrite Hsame by discriminate. reflexivity.
Defined.

Section Apply.
Variables (be : Backend) (supabaseUrl : string) (random : Z) (jobData : row).

Lemma exec_upload_taken (db : Db) :
  fault_of be (resume_upload random jobData) = None →
  file_stored (resume_file random jobData) db = true →
  exec be (resume_upload random jobData) db
    = (Returns {| data := JNull; error := Some already_exists |},
       log (resume_upload random jobData) db).
Proof.
  intros Hfault Htaken. unfold exec. rewrite Hfault. unfold run.
  cbn [resume_upload from q_action q_from]. unfold file_stored in Htaken.
  by rewrite Htaken.
Qed.

Lemma exec_upload_free (db : Db) :
  fault_of be (resume_upload random jobData) = None →
  file_stored (resume_file random jobData) db = false →
  ∃ db1,
    exec be (resume_upload random jobData) db
      = (Returns {| data := JObj {[ "path" := JStr (resume_file random jobData) ]};
                    error := None |}, db1)
    ∧ file_stored (resume_file random jobData) db1 = true
    ∧ rows_of "applications" db1 = rows_of "applications" db
    ∧ next_id "applications" db1 = next_id "applications" db.
Proof.
  intros Hfault Hfree. unfold exec. rewrite Hfault. unfold run.
  cbn [resume_upload from q_action q_from]. unfold file_stored in Hfree.
  rewrite Hfree. eexists. split; [reflexivity|]. split; [|split].
  - unfold file_stored. rewrite rows_of_log, rows_of_set_rows, existsb_app.
    cbn [existsb]. rewrite lookup_insert_eq. cbn [eq_text mbind option_bind text_of].
    by rewrite String.eqb_refl, !orb_true_r.
  - rewrite rows_of_log. unfold rows_of, set_rows. cbn [tables].
    by rewrite lookup_insert_ne.
  - done.
Qed.

Lemma applyToJob_taken (db : Db) :
  fault_of be (resume_upload random jobData) = None →
  file_stored (resume_file random jobData) db = true →
  ApiApplications.applyToJob (exec be) supabaseUrl random jobData db
    = (Throws (JsError "Error uploading Resume"),
       log (resume_upload random jobData) db).
Proof.
  intros Hfault Htaken. unfold ApiApplications.applyToJob, mbind, async_bind.
  fold (resume_file random jobData) (resume_upload random jobData).
  by rewrite (exec_upload_taken db Hfault Htaken).
Qed.

(** X12. [applyToJob] stops at the upload: when storage already holds a
    file of the generated name, or answers the upload with an error, the
    wrapper throws "Error uploading Resume" having made that one request, and
    no application has been inserted. *)
Theorem applyToJob_upload_failure (db : Db) :
  (fault_of be (resume_upload random jobData) = None
   ∧ file_stored (resume_file random jobData) db = true)
  ∨ (∃ e, fault_of be (resume_upload random jobData) = Some (AnswerError e)) →
  let out := ApiApplications.applyToJob (exec be) supabaseUrl random jobData db in
  out.1 = Throws (JsError "Error uploading Resume")
  ∧ tables out.2 = tables db
  ∧ sequences out.2 = sequences db
  ∧ oplog out.2 = oplog db ++ [resume_upload random jobData].
Proof.
  intros [[Hfault Htaken] | [e Hfault]]; cbv zeta.
  - by rewrite (applyToJob_taken db Hfault Htaken).
  - unfold ApiApplications.applyToJob, mbind, async_bind.
    fold (resume_file random jobData) (resume_upload random jobData).
    by rewrite (exec_answer_error be _ db e Hfault).
Qed.

(** X13. A successful [applyToJob] stores the resume under
    "resume-<random>-<candidate_id>" and appends one application that has the
    fields it was given, except that [resume] is the public URL of the stored
    file; a second application with the same random number and candidate
    fails at the upload. *)
Theorem applyToJob_stores_application (db : Db) :
  fault_of be (resume_upload random jobData) = None →
  file_stored (resume_file random jobData) db = false →
  fault_of be (insert_one "applications" (application_row supabaseUrl random jobData))
    = None →
  (∀ q r, permits be q r = true) →
  ∃ (r : row) (db1 : Db),
    ApiApplications.applyToJob (exec be) supabaseUrl random jobData db
      = (Returns (JArr [JObj r]), db1)
    ∧ r !! "resume" = Some (JStr (resume_url supabaseUrl random jobData))
    ∧ (∀ k v, k ≠ "resume" → jobData !! k = Some v → v ≠ JUndefined →
         r !! k = Some v)
    ∧ rows_of "applications" db1 = rows_of "applications" db ++ [r]
    ∧ file_stored (resume_file random jobData) db1 = true
    ∧ (ApiApplications.applyToJob (exec be) supabaseUrl random jobData db1).1
        = Throws (JsError "Error uploading Resume").
Proof.
  intros Hupload Hfree Hinsert Hpermit.
  destruct (exec_upload_free db Hupload Hfree) as (db0 & Hexec0 & Hstored & Hrows0 & Hid0).
  destruct (exec_insert_one be "applications"
              (application_row supabaseUrl random jobData) db0 Hinsert (Hpermit _ _))
    as (db1 & Hexec1 & Hrows1 & Hother).
  assert (file_stored (resume_file random jobData) db1 = true) as Hkept.
  { unfold file_stored in *. by rewrite (Hother "resumes"). }
  eexists _, db1. split; [|split; [|split; [|split; [|split]]]].
  - unfold ApiApplications.applyToJob, mbind, async_bind.
    fold (resume_file random jobData) (resume_upload random jobData).
    rewrite Hexec0. cbn [error].
    fold (resume_url supabaseUrl random jobData).
    fold (application_row supabaseUrl random jobData).
    fold (insert_one "applications" (application_row supabaseUrl random jobData)).
    rewrite Hexec1. reflexivity.
  - apply stored_lookup; [|done]. unfold application_row. apply lookup_insert_eq.
  - intros k v Hk Hv Hdef. apply stored_lookup; [|done].
    unfold application_row. by rewrite lookup_insert_ne.
  - by rewrite Hrows1, Hrows0, Hid0.
  - exact Hkept.
  - by rewrite (applyToJob_taken db1 Hupload Hkept).
Qed.

End Apply.

Lemma applyToJob_stores_application_witness :
  ∃ (r : row) (db1 : Db),
    ApiApplications.applyToJob (exec service_role) "https://db.example" 5
        application jobs_db = (Returns (JArr [JObj r]), db1)
    ∧ r !! "resume"
        = Some (JStr "https://db.example/storage/v1/object/public/resumes/resume-5-user_1")
    ∧ r !! "job_id" = Some (JNum 7)
    ∧ (ApiApplications.applyToJob (exec service_role) "https://db.example" 5
         application db1).1 = Throws (JsError "Error uploading Resume").
Proof.
  destruct (applyToJob_stores_application service_role "https://db.example" 5
              application jobs_db)
    as (r & db1 & Hrun & Hresume & Hfields & _ & _ & Hagain);
    [reflexivity | vm_compute; reflexivity | reflexivity | intros; reflexivity |].
  exists r, db1. split; [exact Hrun|]. split; [exact Hresume|].
  split; [|exact Hagain]. apply Hfields; [discriminate | reflexivity | discriminate].
Defined.

Lemma applyToJob_upload_failure_witness :
  let out := ApiApplications.applyToJob (exec (outage already_exists))
               "https://db.example" 5 application jobs_db in
  out.1 = Throws (JsError "Error uploading Resume")
  ∧ tables out.2 = tables jobs_db
  ∧ sequences out.2 = sequences jobs_db
  ∧ oplog out.2 = oplog jobs_db ++ [resume_upload 5 application].
Proof.
  apply (applyToJob_upload_failure (outage already_exists) "https://db.example" 5
           application jobs_db).
  right. eexists. reflexivity.
Defined.

(** ** The guard over the route table, and the pages behind it *)

Import Router PostJobPage UseFetch ClerkProxy.

(** X14. A visitor who is not signed in never gets a guarded page: the
    guard sends them to "/?sign-in=true", whose route is guarded in turn, so
    however many redirects are followed no page renders. *)
Theorem signed_out_sees_no_page (fuel : nat) (session : UseUser)
    (requiredRole : option string) (pathname : string) :
  isSignedIn session = false →
  settle fuel session requiredRole pathname = None.
Proof.
  intros Hout. revert requiredRole pathname.
  induction fuel as [|n IH]; intros requiredRole pathname; [done|].
  cbn [settle]. unfold ProtectedRoute. rewrite Hout.
  destruct (isLoaded session); cbn [negb]; [|done]. apply IH.
Qed.

Lemma signed_out_sees_no_page_witness : settle 5 visitor None "/jobs" = None.
Proof. apply (signed_out_sees_no_page 5 visitor None "/jobs"). reflexivity. Defined.

Lemma settle_step (n : nat) (session : UseUser) (requiredRole : option string)
    (pathname : string) :
  settle (Datatypes.S n) session requiredRole pathname =
    match ProtectedRoute requiredRole session pathname with
    | Children => Some pathname
    | Null => None
    | Navigate to _ =>
        settle n session (required_role_at (pathname_of to)) (pathname_of to)
    end.
Proof. reflexivity. Qed.

Lemma settle_to_root (n : nat) (session : UseUser) :
  settle n session (required_role_at (pathname_of "/")) (pathname_of "/")
    = settle n session None "/".
Proof. reflexivity. Qed.

Lemma settle_to_admin (n : nat) (session : UseUser) :
  settle n session (required_role_at (pathname_of "/admin")) (pathname_of "/admin")
    = settle n session (Some "admin") "/admin".
Proof. reflexivity. Qed.

Lemma settle_to_onboarding (n : nat) (session : UseUser) :
  settle n session (required_role_at (pathname_of "/onboarding"))
      (pathname_of "/onboarding")
    = settle n session None "/onboarding".
Proof. reflexivity. Qed.

Section Settling.
Variable session : UseUser.
Hypothesis loaded : isLoaded session = true.
Hypothesis signed_in : isSignedIn session = true.

Lemma settle_admin_at_admin (n : nat) :
  role_of (user session) = JStr "admin" →
  settle (Datatypes.S n) session (Some "admin") "/admin" = Some "/admin".
Proof.
  intros Hrole. rewrite settle_step.
  rewrite (ProtectedRoute_signed_in _ _ _ loaded signed_in). cbv zeta.
  by rewrite Hrole.
Qed.

Lemma settle_admin_at_root (n : nat) :
  role_of (user session) = JStr "admin" →
  settle (Datatypes.S (Datatypes.S n)) session None "/" = Some "/admin".
Proof.
  intros Hrole. rewrite settle_step.
  rewrite (ProtectedRoute_signed_in _ _ _ loaded signed_in). cbv zeta.
  rewrite Hrole. cbn [role_mismatch strict_eq_str]. 
  change (String.eqb "admin" "admin") with true.
  change (String.eqb "/" "/admin") with false. cbn [andb negb].
  rewrite settle_to_admin. by apply settle_admin_at_admin.
Qed.

Lemma settle_unset_at_onboarding (n : nat) :
  truthy (role_of (user session)) = false →
  settle (Datatypes.S n) session None "/onboarding" = Some "/onboarding".
Proof.
  intros Hunset. rewrite settle_step.
  rewrite (ProtectedRoute_signed_in _ _ _ loaded signed_in). cbv zeta.
  rewrite Hunset, (truthy_strict_eq_str _ "admin" Hunset) by discriminate.
  reflexivity.
Qed.

Lemma settle_unset_at_root (n : nat) :
  truthy (role_of (user session)) = false →
  settle (Datatypes.S (Datatypes.S n)) session None "/" = Some "/onboarding".
Proof.
  intros Hunset. rewrite settle_step.
  rewrite (ProtectedRoute_signed_in _ _ _ loaded signed_in). cbv zeta.
  rewrite Hunset, (truthy_strict_eq_str _ "admin" Hunset) by discriminate.
  cbn [role_mismatch negb andb].
  change (String.eqb "/" "/admin") with false.
  change (String.eqb "/" "/onboarding") with false. cbn [andb negb].
  rewrite settle_to_onboarding. by apply settle_unset_at_onboarding.
Qed.

Lemma settle_member_renders (n : nat) (requiredRole : option string)
    (pathname : string) :
  truthy (role_of (user session)) = true →
  role_of (user session) ≠ JStr "admin" →
  role_mismatch requiredRole (role_of (user session)) = false →
  pathname ≠ "/admin" →
  settle (Datatypes.S n) session requiredRole pathname = Some pathname.
Proof.
  intros Hset Hrole Hmatch Hpath. rewrite settle_step.
  rewrite (ProtectedRoute_signed_in _ _ _ loaded signed_in). cbv zeta.
  apply strict_eq_str_false in Hrole. apply String.eqb_neq in Hpath.
  by rewrite Hmatch, Hrole, Hpath, Hset.
Qed.

End Settling.

(** X15. For a signed-in principal the redirects of the guard end within
    three evaluations, at a page that depends on the role alone: "/admin" for
    an admin, "/onboarding" for a principal without a role, and for any other
    role the requested page or "/". *)
Theorem redirects_converge (session : UseUser) (requiredRole : option string)
    (pathname : string) :
  isLoaded session = true →
  isSignedIn session = true →
  let role := role_of (user session) in
  ∃ page,
    settle 3 session requiredRole pathname = Some page
    ∧ (role = JStr "admin" → page = "/admin")
    ∧ (truthy role = false → page = "/onboarding")
    ∧ (truthy role = true → role ≠ JStr "admin" → page = pathname ∨ page = "/").
Proof.
  intros Hl Hs role.
  rewrite settle_step, (ProtectedRoute_signed_in _ _ _ Hl Hs). cbv zeta. fold role.
  destruct (strict_eq_str role "admin") eqn:Hadmin.
  - assert (role = JStr "admin") as Hrole by (by apply strict_eq_str_true).
    assert (truthy role = true) as Hset by (by rewrite Hrole).
    exists "/admin". split; [|by rewrite Hset].
    destruct (role_mismatch requiredRole role).
    + rewrite settle_to_root. by apply settle_admin_at_root.
    + destruct (String.eqb_spec pathname "/admin") as [->|Hp]; cbn [andb negb].
      * by rewrite Hset.
      * rewrite settle_to_admin. by apply settle_admin_at_admin.
  - assert (role ≠ JStr "admin") as Hrole by (by apply strict_eq_str_false).
    destruct (truthy role) eqn:Hset.
    + destruct (role_mismatch requiredRole role) eqn:Hmatch.
      * exists "/". rewrite settle_to_root.
        split; [by apply settle_member_renders|]. split; [done|]. split; [done|]. auto.
      * destruct (String.eqb_spec pathname "/admin") as [->|Hp]; cbn [andb negb].
        -- exists "/". rewrite settle_to_root.
           split; [by apply settle_member_renders|]. split; [done|]. split; [done|].
           auto.
        -- exists pathname. split; [done|]. split; [done|]. split; [done|]. auto.
    + exists "/onboarding". split; [|done].
      destruct (role_mismatch requiredRole role).
      * rewrite settle_to_root. by apply settle_unset_at_root.
      * destruct (String.eqb_spec pathname "/admin") as [->|Hp]; cbn [andb negb].
        -- rewrite settle_to_root. by apply settle_unset_at_root.
        -- destruct (String.eqb_spec pathname "/onboarding") as [->|Ho];
             cbn [andb negb]; [done|].
           rewrite settle_to_onboarding. by apply settle_unset_at_onboarding.
Qed.

Lemma redirects_converge_witness :
  ∃ page,
    settle 3 (session_with (JObj {[ "role" := JStr "admin" ]})) None "/jobs"
      = Some page
    ∧ page = "/admin".
Proof.
  destruct (redirects_converge (session_with (JObj {[ "role" := JStr "admin" ]}))
              None "/jobs") as (page & Hpage & Hadmin & _);
    [reflexivity | reflexivity |].
  exists page. split; [exact Hpage|]. apply Hadmin. reflexivity.
Defined.

(** X16. Behind the guard of "/post-job", the form is shown to recruiters
    and to nobody else: guard and page together let the form through exactly
    when the role is "recruiter", and any other non-admin role is sent on to
    "/jobs", which the guard lets it see. *)
Theorem post_job_form_for_recruiters_only (session : UseUser) :
  isLoaded session = true →
  isSignedIn session = true →
  let role := role_of (user session) in
  let guard := ProtectedRoute (required_role_at "/post-job") session "/post-job" in
  (guard = Children ∧ PostJob session (JBool false) = Form ↔ role = JStr "recruiter")
  ∧ (truthy role = true → role ≠ JStr "admin" → role ≠ JStr "recruiter" →
       guard = Children
       ∧ PostJob session (JBool false) = Redirect "/jobs"
       ∧ ProtectedRoute (required_role_at "/jobs") session "/jobs" = Children).
Proof.
  intros Hl Hs role guard. subst guard.
  change (required_role_at "/post-job") with (@None string).
  change (required_role_at "/jobs") with (@None string).
  rewrite !(ProtectedRoute_signed_in _ _ _ Hl Hs). cbv zeta. fold role.
  unfold PostJob. rewrite Hl. fold role. cbn [negb orb truthy role_mismatch].
  change (String.eqb "/post-job" "/admin") with false.
  change (String.eqb "/post-job" "/onboarding") with false.
  change (String.eqb "/jobs" "/admin") with false.
  change (String.eqb "/jobs" "/onboarding") with false.
  rewrite !andb_false_r, !andb_true_r. split.
  - split.
    + intros [_ Hform].
      destruct (strict_eq_str role "recruiter") eqn:Hr; [|done].
      by apply strict_eq_str_true.
    + intros Hrole. rewrite Hrole. by cbn.
  - intros Hset Hadmin Hrec.
    apply strict_eq_str_false in Hadmin. apply strict_eq_str_false in Hrec.
    by rewrite Hadmin, Hrec, Hset.
Qed.

Lemma post_job_form_for_recruiters_only_witness :
  ProtectedRoute (required_role_at "/post-job")
      (session_with (JObj {[ "role" := JStr "candidate" ]})) "/post-job" = Children
  ∧ PostJob (session_with (JObj {[ "role" := JStr "candidate" ]})) (JBool false)
      = Redirect "/jobs"
  ∧ ProtectedRoute (required_role_at "/jobs")
      (session_with (JObj {[ "role" := JStr "candidate" ]})) "/jobs" = Children.
Proof.
  destruct (post_job_form_for_recruiters_only
              (session_with (JObj {[ "role" := JStr "candidate" ]})))
    as [_ Hother]; [reflexivity | reflexivity |].
  apply Hother; [reflexivity | discriminate | discriminate].
Defined.

(** X17. After a successful role selection the page [handleRoleSelection]
    navigates to is one the guard lets the principal see with the role just
    assigned, and when that page is "/post-job" the page shows its form
    rather than redirecting again. *)
Theorem role_assignment_lands_on_viewable_page (role : jsval) (b : Browser) :
  truthy role = true →
  role ≠ JStr "admin" →
  let b' := handleRoleSelection role Fulfilled b in
  ProtectedRoute (required_role_at (location b')) (session_of b') (location b')
    = Children
  ∧ (location b' = "/post-job" → PostJob (session_of b') (JBool false) = Form).
Proof.
  intros Hset Hadmin b'.
  assert (role_of (user (session_of b')) = role) as Hrole.
  { apply (profile_role_update role b). }
  apply strict_eq_str_false in Hadmin.
  rewrite (ProtectedRoute_signed_in _ (session_of b') _ eq_refl eq_refl). cbv zeta.
  rewrite Hrole, Hadmin, Hset. unfold PostJob. rewrite Hrole.
  subst b'. cbn [handleRoleSelection user_update navigateUser navigate location
                 console_log].
  destruct (strict_eq_str role "recruiter"); split; try done.
Qed.

Lemma role_assignment_lands_on_viewable_page_witness :
  let b' := handleRoleSelection (JStr "recruiter") Fulfilled onboarding_tab in
  ProtectedRoute (required_role_at (location b')) (session_of b') (location b')
    = Children
  ∧ (location b' = "/post-job" → PostJob (session_of b') (JBool false) = Form).
Proof.
  apply (role_assignment_lands_on_viewable_page (JStr "recruiter") onboarding_tab);
    [reflexivity | discriminate].
Defined.

(** X18. The job the posting form submits is stored open and owned by the
    submitting user: the stored row has [recruiter_id] equal to the user's id
    and [isOpen] true, whatever the form data said for these two fields, and
    every other defined field as entered. *)
Theorem posted_job_is_open_and_owned (be : Backend) (data : row) (user_id : jsval)
    (db : Db) :
  fault_of be (insert_one "jobs" (job_payload data user_id)) = None →
  (∀ q r, permits be q r = true) →
  user_id ≠ JUndefined →
  ∃ (r : row) (db1 : Db),
    ApiJobs.addNewJob (exec be) (job_payload data user_id) db
      = (Returns (JArr [JObj r]), db1)
    ∧ r !! "recruiter_id" = Some user_id
    ∧ r !! "isOpen" = Some (JBool true)
    ∧ (∀ k v, k ≠ "recruiter_id" → k ≠ "isOpen" →
         data !! k = Some v → v ≠ JUndefined → r !! k = Some v)
    ∧ rows_of "jobs" db1 = rows_of "jobs" db ++ [r].
Proof.
  intros Hfault Hpermit Hdefined.
  destruct (exec_insert_one be "jobs" (job_payload data user_id) db Hfault
              (Hpermit _ _)) as (db1 & Hexec & Hrows & _).
  eexists _, db1. split; [|split; [|split; [|split]]].
  - unfold ApiJobs.addNewJob, mbind, async_bind.
    fold (insert_one "jobs" (job_payload data user_id)). by rewrite Hexec.
  - apply stored_lookup; [|done]. unfold job_payload.
    rewrite lookup_insert_ne by done. apply lookup_insert_eq.
  - apply stored_lookup; [|done]. unfold job_payload. apply lookup_insert_eq.
  - intros k v Hk1 Hk2 Hv Hdef. apply stored_lookup; [|done].
    unfold job_payload. by rewrite !lookup_insert_ne.
  - exact Hrows.
Qed.

Lemma posted_job_is_open_and_owned_witness :
  ∃ (r : row) (db1 : Db),
    ApiJobs.addNewJob (exec service_role)
        (job_payload (<["isOpen" := JBool false]> draft) (JStr "u2")) jobs_db
      = (Returns (JArr [JObj r]), db1)
    ∧ r !! "recruiter_id" = Some (JStr "u2")
    ∧ r !! "isOpen" = Some (JBool true).
Proof.
  destruct (posted_job_is_open_and_owned service_role
              (<["isOpen" := JBool false]> draft) (JStr "u2") jobs_db)
    as (r & db1 & Hrun & Howner & Hopen & _);
    [reflexivity | intros; reflexivity | discriminate |].
  exists r, db1. split; [exact Hrun|]. split; [exact Howner | exact Hopen].
Defined.

(** ** The fetch hook over the wrappers *)

(** X19. What a component sees through [useFetch] when a database request
    of the wrapper it calls fails: loading ends, and either the hook's data is
    null with no error set, or the error is set and the data is what it was
    before the call; the error state alone does not tell a failure from
    a success. *)
Theorem useFetch_failure_visibility {S : Type} (supabase : client S)
    (supabaseUrl : string) (token : jsval) (w : wrapper_call) (st : state) (s : S) :
  let run := fn (Returns token) (call (traced supabase) supabaseUrl w) st (s, []) in
  existsb database_error run.2.2 = true →
  loading run.1 = JBool false
  ∧ ((fetched run.1 = JNull ∧ failure run.1 = None)
     ∨ (fetched run.1 = fetched st ∧ ∃ e, failure run.1 = Some e)).
Proof.
  intros run Herror. subst run. unfold fn in *.
  pose proof (wrapper_error_convention supabase supabaseUrl w s) as Hconv.
  cbv zeta in Hconv.
  destruct (call (traced supabase) supabaseUrl w (s, [])) as [[v|e] s'].
  - cbn [fst snd] in *. destruct (Hconv Herror) as [Hnull|Hthrow]; [|done].
    split; [done|]. left. split; [|done]. by destruct v.
  - cbn [fst snd]. split; [done|]. right. eauto.
Qed.

Lemma useFetch_failure_visibility_witness :
  let run := fn (Returns (JStr "token"))
               (call (traced (failing no_rows)) "" GetSavedJobs) initial (tt, []) in
  loading run.1 = JBool false
  ∧ ((fetched run.1 = JNull ∧ failure run.1 = None)
     ∨ (fetched run.1 = fetched initial ∧ ∃ e, failure run.1 = Some e)).
Proof.
  apply (useFetch_failure_visibility (failing no_rows) "" (JStr "token")
           GetSavedJobs initial tt).
  reflexivity.
Defined.

(** ** The theme provider *)

(** X20. A theme chosen through [setTheme] is the theme the provider
    starts with after a reload, whatever was stored before and whatever the
    default is; only the empty string does not survive, for which the default
    is taken. *)
Theorem theme_survives_reload (storageKey defaultTheme : option string)
    (theme : string) (w : Theme.Browser) :
  let w' := (Theme.setTheme storageKey theme w).2 in
  Theme.initial_theme defaultTheme storageKey w'
    = if String.eqb theme "" then Theme.defaultTheme_or defaultTheme else theme.
Proof.
  cbv zeta. unfold Theme.initial_theme, Theme.setTheme. cbn [snd Theme.localStorage].
  by rewrite lookup_insert_eq.
Qed.

Lemma remove2_spec (a b c : string) (classes : list string) :
  c ∈ Theme.remove2 a b classes ↔ c ∈ classes ∧ c ≠ a ∧ c ≠ b.
Proof.
  unfold Theme.remove2. rewrite !list_elem_of_In, filter_In, andb_true_iff.
  rewrite !negb_true_iff, !String.eqb_neq. tauto.
Qed.

Lemma add_spec (t c : string) (classes classes' : list string) :
  Theme.add t classes = Returns classes' →
  (c ∈ classes' ↔ c ∈ classes ∨ c = t).
Proof.
  unfold Theme.add. destruct (negb (Theme.valid_token t)); [done|].
  destruct (existsb (String.eqb t) classes) eqn:Hin; intros [= <-].
  - apply existsb_exists in Hin as (x & Hx & Heq). apply String.eqb_eq in Heq.
    subst x. apply list_elem_of_In in Hx. split; [auto|]. by intros [?| ->].
  - rewrite elem_of_app, list_elem_of_singleton. tauto.
Qed.

(** X21. After the theme effect has run for "light", "dark" or "system",
    the root element carries exactly one of the classes "light" and "dark":
    the chosen one, or for "system" the one the system prefers; every other
    class is as before and local storage is untouched. *)
Theorem theme_class_is_exclusive (theme : string) (w : Theme.Browser) :
  theme ∈ ["light"; "dark"; "system"] →
  ∃ w',
    Theme.apply_theme theme w = Returns w'
    ∧ Theme.localStorage w' = Theme.localStorage w
    ∧ ("dark" ∈ Theme.classList w' ↔
         theme = "dark" ∨ (theme = "system" ∧ Theme.prefersDark w = true))
    ∧ ("light" ∈ Theme.classList w' ↔
         theme = "light" ∨ (theme = "system" ∧ Theme.prefersDark w = false))
    ∧ (∀ c, c ≠ "light" → c ≠ "dark" →
         (c ∈ Theme.classList w' ↔ c ∈ Theme.classList w)).
Proof.
  intros Htheme. unfold Theme.apply_theme.
  set (token := if String.eqb theme "system"
                then (if Theme.prefersDark w then "dark" else "light") else theme).
  assert (token = "dark" ∨ token = "light") as Htoken.
  { subst token. rewrite !elem_of_cons, elem_of_nil in Htheme.
    destruct Htheme as [-> | [-> | [-> | []]]]; cbn; auto.
    destruct (Theme.prefersDark w); auto. }
  destruct (Theme.add token (Theme.remove2 "light" "dark" (Theme.classList w)))
    as [classes|e] eqn:Hadd.
  2:{ unfold Theme.add in Hadd. by destruct Htoken as [Ht|Ht]; rewrite Ht in Hadd;
        cbn in Hadd; destruct (existsb _ _). }
  eexists. split; [reflexivity|]. cbn [Theme.localStorage Theme.classList].
  split; [done|].
  pose proof (λ c, add_spec token c _ _ Hadd) as Hin.
  assert (∀ c, c ∈ classes ↔
            (c ∈ Theme.classList w ∧ c ≠ "light" ∧ c ≠ "dark") ∨ c = token) as Hmem.
  { intros c. by rewrite Hin, remove2_spec. }
  rewrite !elem_of_cons, elem_of_nil in Htheme.
  split; [|split].
  - rewrite Hmem. subst token.
    destruct Htheme as [-> | [-> | [-> | []]]]; cbn;
      [|  | destruct (Theme.prefersDark w)]; naive_solver.
  - rewrite Hmem. subst token.
    destruct Htheme as [-> | [-> | [-> | []]]]; cbn;
      [|  | destruct (Theme.prefersDark w)]; naive_solver.
  - intros c Hl Hd. rewrite Hmem. destruct Htoken as [-> | ->]; naive_solver.
Qed.

Lemma theme_class_is_exclusive_witness :
  ∃ w',
    Theme.apply_theme "dark" light_page = Returns w'
    ∧ "dark" ∈ Theme.classList w'
    ∧ ("light" ∉ Theme.classList w')
    ∧ "antialiased" ∈ Theme.classList w'.
Proof.
  destruct (theme_class_is_exclusive "dark" light_page)
    as (w' & Hrun & _ & Hdark & Hlight & Hother); [set_solver|].
  exists w'. split; [exact Hrun|]. split; [|split].
  - apply Hdark. left. reflexivity.
  - intros Hin. apply Hlight in Hin as [Heq | [Heq _]]; discriminate.
  - apply Hother; [discriminate | discriminate |]. vm_compute. set_solver.
Defined.

(** ** The admin page in front of the proxy *)

Import AdminPage.

Lemma find_user_rows (userId : string) (rows : list row) :
  ∃ u, find_user userId (JObj <$> rows) = Returns u.
Proof.
  induction rows as [|r rows [u IH]]; [by eexists|].
  cbn [fmap list_fmap find_user member nullish get_named].
  change (list_fmap row jsval JObj rows) with (JObj <$> rows).
  destruct (strict_eq_str _ userId); eauto.
Qed.

Lemma with_banned_rows (userId : string) (banned : bool) (rows : list row) :
  with_banned userId (JBool banned) (JObj <$> rows)
    = Returns (JObj <$> (set_banned userId banned <$> rows)).
Proof.
  induction rows as [|r rows IH]; [done|].
  cbn [fmap list_fmap with_banned member nullish get_named].
  change (list_fmap row jsval JObj rows) with (JObj <$> rows). rewrite IH.
  unfold set_banned at 2, user_is. by destruct (strict_eq_str _ userId).
Qed.

Lemma without_user_rows (userId : string) (rows : list row) :
  without_user userId (JObj <$> rows)
    = Returns (JObj <$> List.filter (λ r, negb (user_is userId r)) rows).
Proof.
  induction rows as [|r rows IH]; [done|].
  cbn [fmap list_fmap without_user member nullish get_named List.filter].
  change (list_fmap row jsval JObj rows) with (JObj <$> rows). rewrite IH.
  change (user_is userId r)
    with (strict_eq_str (default JUndefined (r !! "id")) userId).
  by destruct (strict_eq_str _ userId).
Qed.

Lemma ok_200 : ok 200 = true.
Proof. reflexivity. Qed.

Lemma ok_500 : ok 500 = false.
Proof. reflexivity. Qed.

(** X22. The ban button, end to end through the proxy: the page shows one
    toast, a success toast exactly when the identity provider accepted the
    ban (or unban) and a destructive one otherwise, and the listed users
    change exactly on acceptance, where the one user's [banned] flag becomes
    the negation of the status passed in. *)
Theorem handleBanUser_follows_identity_provider
    (clerk : string → string → fetch_answer) (http : string → string → reply)
    (userId : string) (currentBannedStatus : jsval) (rows : list row)
    (text : completion string) (p : page) :
  let action := if truthy currentBannedStatus then "unban" else "ban" in
  let handler := if truthy currentBannedStatus then unban_user else ban_user in
  let upstream :=
    clerk "POST" ("https://api.clerk.com/v1/users/" +:+ userId +:+ "/" +:+ action) in
  users p = JArr (JObj <$> rows) →
  http "POST" ("http://localhost:3001/api/" +:+ action +:+ "-user/" +:+ userId)
    = served (handler clerk userId) text →
  let p' := handleBanUser http userId currentBannedStatus p in
  (∃ t, toasts p' = toasts p ++ [t]
        ∧ variant t = if accepted upstream then "default" else "destructive")
  ∧ users p'
      = if accepted upstream
        then JArr (JObj <$> (set_banned userId (negb (truthy currentBannedStatus))
                               <$> rows))
        else users p.
Proof.
  cbv zeta. intros Husers Hhttp. unfold handleBanUser. rewrite Husers.
  cbn [as_array]. destruct (find_user_rows userId rows) as [u ->].
  rewrite Hhttp. unfold served.
  rewrite with_banned_rows.
  destruct (truthy currentBannedStatus); cbn [negb].
  - unfold unban_user.
    change ("https://api.clerk.com/v1/users/" +:+ userId +:+ "/" +:+ "unban")
      with ("https://api.clerk.com/v1/users/" +:+ userId +:+ "/unban").
    destruct (clerk "POST" _) as [e|[|] [j|e]]; cbn [accepted Server.status json
      done_message clerk_failed error_body];
      rewrite ?ok_200, ?ok_500; cbn [negb];
      try (destruct text);
      (split; [eexists; split; [reflexivity|reflexivity]|done]).
  - unfold ban_user.
    change ("https://api.clerk.com/v1/users/" +:+ userId +:+ "/" +:+ "ban")
      with ("https://api.clerk.com/v1/users/" +:+ userId +:+ "/ban").
    destruct (clerk "POST" _) as [e|[|] [j|e]]; cbn [accepted Server.status json
      done_message clerk_failed error_body];
      rewrite ?ok_200, ?ok_500; cbn [negb];
      try (destruct text);
      (split; [eexists; split; [reflexivity|reflexivity]|done]).
Qed.

Lemma handleBanUser_follows_identity_provider_witness :
  let p' := handleBanUser (server clerk_accepts) "user_2" (JBool false) admin_page in
  (∃ t, toasts p' = [t] ∧ variant t = "default")
  ∧ users p' = JArr (JObj <$> (set_banned "user_2" true <$> accounts)).
Proof.
  apply (handleBanUser_follows_identity_provider clerk_accepts (server clerk_accepts)
           "user_2" (JBool false) accounts (Returns "") admin_page);
    [reflexivity | reflexivity].
Defined.

(** X23. The delete button, end to end through the proxy: the page shows
    one toast, a success toast exactly when the identity provider accepted
    the deletion and a destructive one otherwise, and the user leaves the
    list exactly on acceptance. *)
Theorem handleDeleteUser_follows_identity_provider
    (clerk : string → string → fetch_answer) (http : string → string → reply)
    (userId : string) (rows : list row) (text : completion string) (p : page) :
  let upstream := clerk "DELETE" ("https://api.clerk.com/v1/users/" +:+ userId) in
  users p = JArr (JObj <$> rows) →
  http "DELETE" ("http://localhost:3001/api/delete-user/" +:+ userId)
    = served (delete_user clerk userId) text →
  let p' := handleDeleteUser http userId p in
  (∃ t, toasts p' = toasts p ++ [t]
        ∧ variant t = if accepted upstream then "default" else "destructive")
  ∧ users p'
      = if accepted upstream
        then JArr (JObj <$> List.filter (λ r, negb (user_is userId r)) rows)
        else users p.
Proof.
  cbv zeta. intros Husers Hhttp. unfold handleDeleteUser. rewrite Husers.
  cbn [as_array]. destruct (find_user_rows userId rows) as [u ->].
  rewrite Hhttp. unfold served. rewrite without_user_rows. unfold delete_user.
  destruct (clerk "DELETE" _) as [e|[|] [j|e]];
    cbn [accepted Server.status json done_message clerk_failed error_body];
    rewrite ?ok_200, ?ok_500; cbn [negb];
    (split; [eexists; split; [reflexivity|reflexivity]|done]).
Qed.

Lemma handleDeleteUser_follows_identity_provider_witness :
  let p' := handleDeleteUser (server clerk_refuses) "user_2" admin_page in
  (∃ t, toasts p' = [t] ∧ variant t = "destructive")
  ∧ users p' = users admin_page.
Proof.
  apply (handleDeleteUser_follows_identity_provider clerk_refuses
           (server clerk_refuses) "user_2" accounts (Returns "") admin_page);
    [reflexivity | reflexivity].
Defined.

Section FilterFacts.
Variable toLowerCase : string → string.

Lemma listed_true (search : string) (u : jsval) :
  listed toLowerCase search u = Returns true →
  ∃ e, email_of u = JStr e ∧ endsWith e "@admin.com" = false.
Proof.
  unfold listed, email_of, member, opt_named.
  destruct (nullish u); [done|].
  destruct (or_else _ (JStr "")) as [| | | |e| |]; try done.
  destruct (endsWith e "@admin.com") eqn:He; [done|]. eauto.
Qed.

Lemma listed_empty_search (u : jsval) (e : string) :
  toLowerCase "" = "" →
  nullish u = false →
  email_of u = JStr e →
  listed toLowerCase "" u = Returns (negb (endsWith e "@admin.com")).
Proof.
  intros Hlower Hu. unfold listed, email_of, member, opt_named. rewrite Hu.
  intros ->. destruct (endsWith e "@admin.com"); [done|].
  cbn [matches]. rewrite Hlower.
  assert (includes (toLowerCase e) "" = true) as ->; [|done].
  by destruct (toLowerCase e).
Qed.

Lemma filter_listed_elem (search : string) (l out : list jsval) (u : jsval) :
  filter_listed toLowerCase search l = Returns out →
  u ∈ out ↔ u ∈ l ∧ listed toLowerCase search u = Returns true.
Proof.
  revert out. induction l as [|x l IH]; intros out; cbn [filter_listed].
  - intros [= <-]. set_solver.
  - destruct (listed toLowerCase search x) as [keep|err] eqn:Hx; [|done].
    destruct (filter_listed toLowerCase search l) as [kept|err]; [|done].
    intros [= <-]. specialize (IH kept eq_refl).
    destruct keep.
    + rewrite !elem_of_cons, IH. split.
      * intros [-> | [? ?]]; auto.
      * intros [[-> | ?] ?]; auto.
    + rewrite elem_of_cons, IH. split.
      * intros [? ?]; auto.
      * intros [[-> | ?] ?]; [congruence|auto].
Qed.

End FilterFacts.

Lemma filter_listed_total (toLowerCase : string → string) (search : string)
    (l out : list jsval) (u : jsval) :
  filter_listed toLowerCase search l = Returns out →
  u ∈ l → nullish u = false.
Proof.
  revert out. induction l as [|x l IH]; intros out; cbn [filter_listed].
  - intros _ Hu. by apply elem_of_nil in Hu.
  - destruct (listed toLowerCase search x) as [keep|err] eqn:Hx; [|done].
    destruct (filter_listed toLowerCase search l) as [kept|err]; [|done].
    intros _ Hu. apply elem_of_cons in Hu as [-> | Hu]; [|by apply (IH kept)].
    unfold listed, member in Hx. by destruct (nullish x).
Qed.

(** X24. The user table never shows an account whose first e-mail address
    ends in "@admin.com": what [filteredUsers] yields is a sub-list, in order,
    of the users, each with a string address that does not end so; and with
    an empty search box every such user is shown. *)
Theorem filteredUsers_hides_admin_accounts (toLowerCase : string → string)
    (users : jsval) (searchEmail : string) (out : list jsval) :
  filteredUsers toLowerCase users searchEmail = Returns out →
  ∃ l, users = JArr l
    ∧ out `sublist_of` l
    ∧ (∀ u, u ∈ out → ∃ e, email_of u = JStr e ∧ endsWith e "@admin.com" = false)
    ∧ (toLowerCase "" = "" → searchEmail = "" →
       ∀ u e, u ∈ l → email_of u = JStr e → endsWith e "@admin.com" = false →
              u ∈ out).
Proof.
  unfold filteredUsers. destruct users as [| | | | |l|]; try done. cbn [as_array].
  intros Hrun. exists l. split; [done|]. split; [|split].
  - revert out Hrun. induction l as [|x l IH]; intros out; cbn [filter_listed].
    + by intros [= <-].
    + destruct (listed toLowerCase searchEmail x) as [keep|err]; [|done].
      destruct (filter_listed toLowerCase searchEmail l) as [kept|err]; [|done].
      intros [= <-]. specialize (IH kept eq_refl).
      destruct keep; [by apply sublist_skip|by apply sublist_cons].
  - intros u Hu. apply (filter_listed_elem _ _ _ _ u Hrun) in Hu as [_ Hu].
    by apply listed_true in Hu.
  - intros Hlower -> u e Hu He Hnot.
    apply (filter_listed_elem _ _ _ _ u Hrun). split; [done|].
    rewrite (listed_empty_search toLowerCase u e Hlower); [by rewrite Hnot| |done].
    by apply (filter_listed_total toLowerCase "" l out).
Qed.

Lemma filteredUsers_hides_admin_accounts_witness :
  ∃ l, JArr (JObj <$> accounts) = JArr l
    ∧ [JObj (account "user_2" "sam@example.com")] `sublist_of` l
    ∧ (∀ u, u ∈ [JObj (account "user_2" "sam@example.com")] →
         ∃ e, email_of u = JStr e ∧ endsWith e "@admin.com" = false).
Proof.
  destruct (filteredUsers_hides_admin_accounts (λ s, s) (JArr (JObj <$> accounts)) ""
              [JObj (account "user_2" "sam@example.com")])
    as (l & Hl & Hsub & Hhidden & _); [vm_compute; reflexivity|].
  exists l. split; [exact Hl|]. split; [exact Hsub | exact Hhidden].
Defined.

(** X25. The user listing relays whatever the identity provider sends: an
    error body of a refused request reaches the page with status 200, becomes
    the page's users without the error state being set, and when it is not an
    array the computation of the user table throws. *)
Theorem users_request_relays_upstream_error
    (clerk : string → string → fetch_answer) (http : string → string → reply)
    (flag : bool) (data : jsval) (text : completion string) (p : page) :
  clerk "GET" "https://api.clerk.com/v1/users" = FetchResponse flag (Returns data) →
  http "GET" "http://localhost:3001/api/get-clerk-users"
    = served (get_clerk_users clerk) text →
  Server.status (get_clerk_users clerk) = 200
  ∧ users (fetchUsers http p) = data
  ∧ error (fetchUsers http p) = error p
  ∧ ((∀ l, data ≠ JArr l) →
       ∀ toLowerCase searchEmail,
         ∃ e, filteredUsers toLowerCase (users (fetchUsers http p)) searchEmail
                = Throws e).
Proof.
  intros Hclerk Hhttp. unfold fetchUsers. rewrite Hhttp.
  unfold served, get_clerk_users. rewrite Hclerk. cbn.
  repeat split. intros Hdata lower search. unfold filteredUsers.
  destruct data as [| | | | |l|]; cbn [as_array]; eauto.
  by destruct (Hdata l).
Qed.

Lemma users_request_relays_upstream_error_witness :
  Server.status (get_clerk_users clerk_refuses) = 200
  ∧ error (fetchUsers (server clerk_refuses) admin_page) = None
  ∧ ∃ e, filteredUsers (λ s, s)
           (users (fetchUsers (server clerk_refuses) admin_page)) "" = Throws e.
Proof.
  destruct (users_request_relays_upstream_error clerk_refuses (server clerk_refuses)
              false (JObj {[ "errors" := JArr [JStr "authentication_invalid"] ]})
              (Returns "") admin_page)
    as (Hstatus & _ & Herror & Hthrows); [reflexivity | reflexivity |].
  split; [exact Hstatus|]. split; [exact Herror|].
  apply Hthrows. discriminate.
Defined.
